(** * instamatic-tecnai-server: the command-dispatch bridge

    A shallow embedding of [instamaticServer/tem_server.py] (the
    [DeviceServer] thread, the connection handler, the listener and
    [main]), of [instamaticServer/utils/config.py], of the camera of
    [TEMController/tecnai_camera.py] and of the client of [tests.py],
    followed by the properties that are proved about them.

    Threads are modelled as step functions over an explicit shared store
    (the two class-level queues and the module-level stop event), so that
    every interleaving of the threads is a path of a transition system. *)

From Stdlib Require Import Strings.Byte.
From stdpp Require Import gmap strings list fin_maps.

Local Open Scope Z_scope.
Local Set Warnings "-register-all".

(** ** Python values, exceptions and outcomes *)

Module Py.

(** The objects that travel through the bridge: what the serializer
    decodes, what a device operation takes and returns, what a YAML file
    holds.  A float is carried as its IEEE-754 bit pattern; the bridge
    never computes with it.  [VNS] is an instance of [utils.config.NS]. *)
Inductive value : Type :=
  | VNone
  | VBool (b : bool)
  | VInt (n : Z)
  | VFloat (bits : Z)
  | VStr (s : string)
  | VBytes (bs : list byte)
  | VTuple (items : list value)
  | VList (items : list value)
  | VDict (d : gmap string value)
  | VNS (attrs : gmap string value).

(** [type(v).__name__] *)
Definition type_name (v : value) : string :=
  match v with
  | VNone => "NoneType"
  | VBool _ => "bool"
  | VInt _ => "int"
  | VFloat _ => "float"
  | VStr _ => "str"
  | VBytes _ => "bytes"
  | VTuple _ => "tuple"
  | VList _ => "list"
  | VDict _ => "dict"
  | VNS _ => "NS"
  end.

(** An instance of (a subclass of) [Exception]: the class that the
    [except] clauses of the program name.  Only [e.__class__.__name__]
    and [e.args] are ever observed.  Interpreter signals that derive from
    [BaseException] alone ([SystemExit], [KeyboardInterrupt]) are not
    command failures and are not part of this type. *)
Record exception : Type := Exc { exc_class : string; exc_args : list value }.

Definition AttributeError (msg : string) : exception := Exc "AttributeError" [VStr msg].
Definition TypeError (msg : string) : exception := Exc "TypeError" [VStr msg].
Definition KeyError (key : string) : exception := Exc "KeyError" [VStr key].
Definition RuntimeError (msg : string) : exception := Exc "RuntimeError" [VStr msg].
Definition FileNotFoundError : exception :=
  Exc "FileNotFoundError" [VInt 2; VStr "No such file or directory"].

(** What evaluating an expression gives: a value, or a raised exception. *)
Inductive outcome (A : Type) : Type :=
  | Return (a : A)
  | Raise (e : exception).
Global Arguments Return {A} a.
Global Arguments Raise {A} e.

(** Sequencing: an exception raised by [m] skips the rest of the block. *)
Global Instance outcome_ret : MRet outcome := λ A a, Return a.
Global Instance outcome_bind : MBind outcome := λ A B k m,
  match m with
  | Return a => k a
  | Raise e => Raise e
  end.

(** [v == s] for a [str] literal [s] *)
Definition eq_str (v : value) (s : string) : bool :=
  match v with
  | VStr t => bool_decide (t = s)
  | _ => false
  end.

(** [obj.get(key, default)] for a [key] that names no attribute of the
    class [NS] itself (no method and no dunder name; the four keys that
    [run] asks for are of this kind).  On a [dict] this is [dict.get].  On
    a namespace [obj.get] is looked up first: an entry named [get] hides
    the method of the class, and calling that entry, a plain object, raises
    [TypeError]; otherwise [NS.get] runs [getattr(self, key, default)], on
    which the entries decide.  Any other object of the universe has no
    attribute [get]. *)
Definition get (obj : value) (key : string) (dflt : value) : outcome value :=
  match obj with
  | VDict d => Return (default dflt (d !! key))
  | VNS attrs =>
      match attrs !! "get" with
      | Some entry =>
          Raise (TypeError ("'" +:+ type_name entry +:+ "' object is not callable"))
      | None => Return (default dflt (attrs !! key))
      end
  | _ => Raise (AttributeError ("'" +:+ type_name obj +:+ "' object has no attribute 'get'"))
  end.

(** [obj[key]] for a [str] key *)
Definition getitem (obj : value) (key : string) : outcome value :=
  match obj with
  | VDict d =>
      match d !! key with
      | Some v => Return v
      | None => Raise (KeyError key)
      end
  | _ => Raise (TypeError ("'" +:+ type_name obj +:+ "' object is not subscriptable"))
  end.

(** [obj[key] = v] for a [str] key *)
Definition setitem (obj : value) (key : string) (v : value) : outcome value :=
  match obj with
  | VDict d => Return (VDict (<[key := v]> d))
  | _ => Raise (TypeError ("'" +:+ type_name obj +:+ "' object does not support item assignment"))
  end.

End Py.

Import Py.

(** ** [queue.Queue] *)

Module Queue.

(** A FIFO of the standard library: [maxsize <= 0] means unbounded. *)
Record t (A : Type) : Type := Make { maxsize : Z; items : list A }.
Global Arguments Make {A} maxsize items.
Global Arguments maxsize {A} _.
Global Arguments items {A} _.

Section Ops.
Context {A : Type}.

(** [queue.Queue(maxsize=n)] *)
Definition new (n : Z) : t A := Make n [].

Definition qsize (q : t A) : Z := Z.of_nat (length (items q)).

(** [0 < self.maxsize <= self._qsize()] *)
Definition full (q : t A) : bool :=
  bool_decide (0 < maxsize q) && bool_decide (maxsize q ≤ qsize q).

(** [q.put(x)]: [None] when the caller has to wait for a free slot. *)
Definition put (q : t A) (x : A) : option (t A) :=
  if full q then None else Some (Make (maxsize q) (items q ++ [x])).

(** [q.get()]: [None] when the caller has to wait for an item (with a
    timeout, the wait ends in [queue.Empty]). *)
Definition get (q : t A) : option (A * t A) :=
  match items q with
  | [] => None
  | x :: rest => Some (x, Make (maxsize q) rest)
  end.

(** The capacity bound of a queue built with [maxsize=1]. *)
Definition single_slot (q : t A) : Prop :=
  maxsize q = 1 ∧ (length (items q) ≤ 1)%nat.
End Ops.

End Queue.

(** ** The Device Session *)

(** An attribute of the object behind [self.tem]: plain data, or something
    callable.  [call args kwargs] is the whole expression
    [f( *args, **kwargs)]: the unpacking of the two objects, the body of the
    operation and its effect on the hardware. *)
Inductive attribute (Dev : Type) : Type :=
  | Data (v : value)
  | Callable (call : value → value → Dev → outcome value * Dev).
Arguments Data {Dev} v.
Arguments Callable {Dev} call.

(** The collaborator that [TEMController.microscope] provides: how a
    device is obtained, and how a name resolves on it ([None]: the object
    has no attribute of that name). *)
Class Device (Dev : Type) : Type := {
  get_microscope : option string → outcome Dev;
  class_name : string;
  device_name : Dev → string;
  lookup : Dev → string → option (attribute Dev)
}.

(** The serializer module: [loader] decodes received bytes, [dumper]
    encodes a response. *)
Class Serializer : Type := {
  loader : list byte → outcome value;
  dumper : value → outcome (list byte)
}.

(** ** [tem_server.py] *)

Definition BUFSIZE : nat := 1024.

(** The state shared by the threads of one device kind: the class
    attributes [requests] and [responses] and the module-level event. *)
Record shared : Type := Shared {
  requests : Queue.t value;
  responses : Queue.t value;
  stop_program_event : bool
}.

Inductive log_entry : Type :=
  | LogInitialized (name : string)
  | LogException (e : exception)
  | LogServed (status : Z) (func_name ret : value)
  | LogTerminating (name : string).

(** The tuple [(status, ret)] that [run] puts on [responses] for an
    exception [e], and for a returned value. *)
Definition failure (e : exception) : value :=
  VTuple [VInt 500; VTuple [VStr (exc_class e); VTuple (exc_args e)]].

Definition success (payload : value) : value := VTuple [VInt 200; payload].

Section DeviceServer.
Context {Dev : Type} `{!Device Dev}.

(** [getattr(self.tem, func_name)] *)
Definition getattr (tem : Dev) (name : value) : outcome (attribute Dev) :=
  match name with
  | VStr n =>
      match lookup tem n with
      | Some a => Return a
      | None =>
          Raise (AttributeError
                   ("'" +:+ class_name +:+ "' object has no attribute '" +:+ n +:+ "'"))
      end
  | _ =>
      Raise (TypeError
               ("attribute name must be string, not '" +:+ type_name name +:+ "'"))
  end.

(** [f( *args, **kwargs)] *)
Definition call (f : attribute Dev) (args kwargs : value) (tem : Dev)
  : outcome value * Dev :=
  match f with
  | Callable op => op args kwargs tem
  | Data v =>
      (Raise (TypeError ("'" +:+ type_name v +:+ "' object is not callable")), tem)
  end.

(** [DeviceServer.evaluate] *)
Definition evaluate (tem : Dev) (func_name args kwargs : value)
  : outcome value * Dev :=
  match getattr tem func_name with
  | Raise e => (Raise e, tem)
  | Return f => call f args kwargs tem
  end.

(** Lines 63 to 65 of [run]: the three [cmd.get] lookups, which stand
    outside the [try]. *)
Definition command_fields (cmd : value) : outcome (value * value * value) :=
  attr_name ← Py.get cmd "attr_name" VNone;
  func_name ← Py.get cmd "func_name" attr_name;
  args ← Py.get cmd "args" (VTuple []);
  kwargs ← Py.get cmd "kwargs" (VDict ∅);
  mret (func_name, args, kwargs).

(** The [try]/[except Exception] block of [run]: status, [ret], the
    device afterwards and what was logged. *)
Definition attempt (tem : Dev) (func_name args kwargs : value)
  : Z * value * Dev * list log_entry :=
  match evaluate tem func_name args kwargs with
  | (Return ret, tem') => (200, ret, tem', [])
  | (Raise e, tem') =>
      (500, VTuple [VStr (exc_class e); VTuple (exc_args e)], tem', [LogException e])
  end.

(** Where the thread stands inside [while True]. *)
Inductive position : Type :=
  | AtGet
  | Timedout
  | AtPut (status : Z) (ret func_name : value).

Inductive server_state : Type :=
  | Created (name : option string)
  | Running (tem : Dev) (pos : position)
  | Terminated (tem : Dev)
  | Died (e : exception).

Record server : Type := Server { state : server_state; log : list log_entry }.

(** One step of [DeviceServer.run].  [None]: the thread has ended, or it
    waits in [responses.put] for a free slot.  A [requests.get] that finds
    the queue empty ends in [queue.Empty] after [TIMEOUT], and the handler
    of [queue.Empty] then reads the stop event. *)
Definition run_step (sv : server) (sh : shared) : option (server * shared) :=
  match state sv with
  | Created name =>
      match get_microscope name with
      | Return tem =>
          Some (Server (Running tem AtGet)
                       (log sv ++ [LogInitialized (device_name tem)]), sh)
      | Raise e => Some (Server (Died e) (log sv), sh)
      end
  | Running tem AtGet =>
      match Queue.get (requests sh) with
      | None => Some (Server (Running tem Timedout) (log sv), sh)
      | Some (cmd, q) =>
          let sh' := Shared q (responses sh) (stop_program_event sh) in
          match command_fields cmd with
          | Raise e => Some (Server (Died e) (log sv), sh')
          | Return (func_name, args, kwargs) =>
              let '(status, ret, tem', entries) := attempt tem func_name args kwargs in
              Some (Server (Running tem' (AtPut status ret func_name))
                           (log sv ++ entries), sh')
          end
      end
  | Running tem Timedout =>
      if stop_program_event sh
      then Some (Server (Terminated tem)
                        (log sv ++ [LogTerminating (device_name tem)]), sh)
      else Some (Server (Running tem AtGet) (log sv), sh)
  | Running tem (AtPut status ret func_name) =>
      match Queue.put (responses sh) (VTuple [VInt status; ret]) with
      | None => None
      | Some q =>
          Some (Server (Running tem AtGet)
                       (log sv ++ [LogServed status func_name ret]),
                Shared (requests sh) q (stop_program_event sh))
      end
  | Terminated _ | Died _ => None
  end.

(** The thread scheduled [n] times in a row; it stays where it is once
    it has ended or has to wait. *)
Fixpoint run_steps (n : nat) (sv : server) (sh : shared) : server * shared :=
  match n with
  | O => (sv, sh)
  | S n' =>
      match run_step sv sh with
      | Some (sv', sh') => run_steps n' sv' sh'
      | None => (sv, sh)
      end
  end.

(** What the thread publishes when it takes the next command and serves
    it without a pause: the content of [responses] afterwards. *)
Definition published (sv : server) (sh : shared) : list value :=
  Queue.items (responses (run_steps 2 sv sh).2).

End DeviceServer.

Arguments position : clear implicits.
Arguments server_state : clear implicits.
Arguments server : clear implicits.

(** *** Connections *)

(** A client connection as the handler sees it.  [incoming] lists what
    the next calls of [conn.recv] will find, in order: a chunk of bytes
    (the empty chunk is what a closed peer gives) or an error of the
    transport; an empty list is a silent client, on which [recv] waits. *)
Record connection : Type := Conn {
  incoming : list (outcome (list byte));
  sent : list (list byte);
  closed : bool
}.

(** [conn.recv(bufsize)]: at most [bufsize] bytes of what has arrived. *)
Definition recv (conn : connection) (bufsize : nat)
  : option (outcome (list byte) * connection) :=
  match incoming conn with
  | [] => None
  | Raise e :: rest => Some (Raise e, Conn rest (sent conn) (closed conn))
  | Return bs :: rest =>
      let rest' :=
        match drop bufsize bs with
        | [] => rest
        | later => Return later :: rest
        end in
      Some (Return (take bufsize bs), Conn rest' (sent conn) (closed conn))
  end.


(** Leaving the [with conn:] block. *)
Definition close (conn : connection) : connection :=
  Conn (incoming conn) (sent conn) true.

(** Where [handle] stands inside its [while True]. *)
Inductive handler_position : Type :=
  | HTop
  | HRecv
  | HPut (data : value)
  | HGet.

(** Where [listen] stands: at the top of its [while True], inside
    [accept], inside the call of [handle], or past the loop. *)
Inductive listener_state : Type :=
  | Listening
  | Accepting
  | Handling (conn : connection) (pos : handler_position)
  | Stopped.

(** The thread that runs [listen]: its place in the code, the connections
    that wait to be accepted, the connections it is done with, and the
    exceptions it has logged. *)
Record listener : Type := Listener {
  lstate : listener_state;
  backlog : list connection;
  finished : list connection;
  logged : list exception
}.

(** What [handle] and [listen] take from the [socket] module beyond
    [recv]: whether an exception is an instance of [socket.timeout] (the
    class itself or any subclass of it, as [except socket.timeout] asks),
    and what [conn.send(data)] does on a connection: it returns the number
    of bytes that went out, which may be fewer than [data] has, or raises
    the [OSError] of a peer that is gone. *)
Class Sockets : Type := {
  is_socket_timeout : exception → bool;
  transmit : connection → list byte → outcome nat
}.

Section Listener.
Context {sockets : Sockets} `{!Serializer}.

(** [conn.send(data)], whose return value [handle] drops: the bytes that
    went out are on the connection, the rest of [data] is sent by nobody. *)
Definition send (conn : connection) (data : list byte) : outcome connection :=
  n ← transmit conn data;
  mret (Conn (incoming conn) (sent conn ++ [take n data]) (closed conn)).

(** [handle] returns, or an exception leaves it: the connection is
    closed and control is back in the accept loop of [listen], whose
    [except] clauses deal with the exception. *)
Definition leave (l : listener) (conn : connection) (e : option exception) : listener :=
  Listener Listening (backlog l) (finished l ++ [close conn])
           (logged l ++ match e with
                        | Some e => if is_socket_timeout e then [] else [e]
                        | None => []
                        end).

Definition at_position (l : listener) (conn : connection) (pos : handler_position)
  : listener :=
  Listener (Handling conn pos) (backlog l) (finished l) (logged l).

(** One step of [handle(conn, server_type)], which runs inside the
    thread of [listen].  [None]: the thread waits, in [conn.recv], in
    [requests.put] or in [responses.get]. *)
Definition handle (l : listener) (conn : connection) (pos : handler_position)
  (sh : shared) : option (listener * shared) :=
  match pos with
  | HTop =>
      if stop_program_event sh then Some (leave l conn None, sh)
      else Some (at_position l conn HRecv, sh)
  | HRecv =>
      match recv conn BUFSIZE with
      | None => None
      | Some (Raise e, conn') => Some (leave l conn' (Some e), sh)
      | Some (Return [], conn') => Some (leave l conn' None, sh)
      | Some (Return data, conn') =>
          match loader data with
          | Raise e => Some (leave l conn' (Some e), sh)
          | Return data =>
              if eq_str data "exit" || eq_str data "kill"
              then Some (leave l conn' None, sh)
              else Some (at_position l conn' (HPut data), sh)
          end
      end
  | HPut data =>
      match Queue.put (requests sh) data with
      | None => None
      | Some q =>
          Some (at_position l conn HGet,
                Shared q (responses sh) (stop_program_event sh))
      end
  | HGet =>
      match Queue.get (responses sh) with
      | None => None
      | Some (response, q) =>
          let sh' := Shared (requests sh) q (stop_program_event sh) in
          match dumper response with
          | Raise e => Some (leave l conn (Some e), sh')
          | Return bytes =>
              match send conn bytes with
              | Raise e => Some (leave l conn (Some e), sh')
              | Return conn' => Some (at_position l conn' HTop, sh')
              end
          end
      end
  end.

(** One step of [listen(server_type)].  An [accept] that finds no
    pending connection ends in [socket.timeout] after [TIMEOUT]. *)
Definition listen (l : listener) (sh : shared) : option (listener * shared) :=
  match lstate l with
  | Listening =>
      if stop_program_event sh
      then Some (Listener Stopped (backlog l) (finished l) (logged l), sh)
      else Some (Listener Accepting (backlog l) (finished l) (logged l), sh)
  | Accepting =>
      match backlog l with
      | [] => Some (Listener Listening (backlog l) (finished l) (logged l), sh)
      | connection :: rest =>
          Some (Listener (Handling connection HTop) rest (finished l) (logged l), sh)
      end
  | Handling conn pos => handle l conn pos sh
  | Stopped => None
  end.

End Listener.

(** *** The threads of one device kind *)

Section System.
Context {Dev : Type} `{!Device Dev} {sockets : Sockets} `{!Serializer}.

Record system : Type := System {
  srv : server Dev;
  lsn : listener;
  chan : shared
}.

(** [TemServer(name)] (or [CamServer(name)]) and its [listen] just
    started: each of the two classes has its own pair of queues, built with
    [maxsize=1], and the stop event is clear. *)
Definition initial (name : option string) : system :=
  System (Server (Created name) [])
         (Listener Listening [] [] [])
         (Shared (Queue.new 1) (Queue.new 1) false).

Inductive step : system → system → Prop :=
  | step_run sv l sh sv' sh' :
      run_step sv sh = Some (sv', sh') →
      step (System sv l sh) (System sv' l sh')
  | step_listen sv l sh l' sh' :
      listen l sh = Some (l', sh') →
      step (System sv l sh) (System sv l' sh')
  | step_connect sv l sh conn :
      step (System sv l sh)
           (System sv (Listener (lstate l) (backlog l ++ [conn]) (finished l) (logged l)) sh)
  | step_stop sv l sh :
      step (System sv l sh)
           (System sv l (Shared (requests sh) (responses sh) true)).

Definition reachable (name : option string) (s : system) : Prop :=
  rtc step (initial name) s.

(** Commands and results between a handler and the server thread: in
    [requests], held by the server thread on its way to [responses.put],
    or in [responses]. *)
Definition in_flight (s : system) : nat :=
  (length (Queue.items (requests (chan s)))
   + match state (srv s) with
     | Running _ (AtPut _ _ _) => 1
     | _ => 0
     end
   + length (Queue.items (responses (chan s))))%nat.

(** Handlers that wait in [responses.get]. *)
Definition awaiting (s : system) : nat :=
  match lstate (lsn s) with
  | Handling _ HGet => 1%nat
  | _ => 0%nat
  end.

Definition balanced (s : system) : Prop :=
  Queue.maxsize (requests (chan s)) = 1
  ∧ Queue.maxsize (responses (chan s)) = 1
  ∧ (in_flight s ≤ awaiting s)%nat.

End System.

Arguments system : clear implicits.

(** *** Start-up in [main] *)

Inductive thread : Type := tem_server | tem_listener | cam_server | cam_listener.

(** The parsed command line. *)
Record options : Type := Options { microscope_option : option string; camera_option : bool }.

(** The [for _ in range(attempts)] loop of [main] with its [else]:
    [initialized i] is what [getattr(tem_server, 'tem') is not None] gives at
    poll [i]; [false] is the [else] branch, reached when no poll broke out. *)
Fixpoint wait_for_tem (attempts : nat) (initialized : nat → bool) (poll : nat) : bool :=
  match attempts with
  | O => false
  | S attempts' =>
      if initialized poll then true
      else wait_for_tem attempts' initialized (S poll)
  end.

(** [main] from [threads = [tem_server, tem_listener]] up to its [try],
    for a command line that has parsed to [opts] and threads that start:
    the content of [threads] at the [try], or the exception of the bounded
    wait.  [Process.main] below is the function from its first line to
    its last. *)
Definition main (opts : options) (initialized : nat → bool) : outcome (list thread) :=
  let threads := [tem_server; tem_listener] in
  if camera_option opts then
    if wait_for_tem 100 initialized 0
    then Return (threads ++ [cam_server; cam_listener])
    else Raise (RuntimeError "Could not start TEM device on server in 5 seconds")
  else Return threads.

(** *** [main] from its first line to its last *)

Module Process.

(** What [main] meets on its way: the command line as [parse_args] reads
    it ([inr code]: the parser ends the interpreter with that exit status,
    before anything is started), whether [Thread.start] goes through for
    a thread, what the polls for the TEM find, and whether the wait inside
    the [try] ends by a keyboard interrupt rather than by the stop event. *)
Record surroundings : Type := Surroundings {
  parse_args : options + Z;
  start : thread → outcome unit;
  tem_initialized : nat → bool;
  keyboard_interrupt : bool
}.

(** How [main] ends.  [Exited]: inside [parse_args].  [Aborted e running]:
    the exception [e] left [main] before its [try]; the threads [running]
    had been started by then, and [main] neither sets the stop event nor
    joins them, so that they go on serving.  [Served threads interrupted]:
    the [try] was entered with [threads] started; [main] waited for the
    stop event or for a keyboard interrupt, and its [finally] has set the
    stop event and joined [threads], in this order. *)
Inductive ending : Type :=
  | Exited (code : Z)
  | Aborted (e : exception) (running : list thread)
  | Served (threads : list thread) (interrupted : bool).

(** [t.start()] with [running] started before it, and the rest of [main]. *)
Definition starting (w : surroundings) (t : thread) (running : list thread)
    (rest : list thread → ending) : ending :=
  match start w t with
  | Raise e => Aborted e running
  | Return _ => rest (running ++ [t])
  end.

(** [main] *)
Definition main (w : surroundings) : ending :=
  match parse_args w with
  | inr code => Exited code
  | inl opts =>
      starting w tem_server [] (λ running,
      starting w tem_listener running (λ threads,
        if camera_option opts then
          if wait_for_tem 100 (tem_initialized w) 0 then
            starting w cam_server threads (λ running,
            starting w cam_listener running (λ threads,
              Served threads (keyboard_interrupt w)))
          else Aborted (RuntimeError "Could not start TEM device on server in 5 seconds")
                       threads
        else Served threads (keyboard_interrupt w)))
  end.



End Process.

(** ** [utils/config.py] *)

(** What the configuration code takes from its surroundings: the directory
    of the module and path joining ([pathlib]), opening a file for reading
    (the contents, or the [OSError] that [open] raises), the YAML parser,
    and how an object that is not a [str] prints. *)
Class Files : Type := {
  directory : string;
  joinpath : string → string → string;
  open_read : string → outcome string;
  safe_load : string → outcome value;
  repr : value → string
}.

Module Config.

Definition _settings_file : string := "settings.yaml".

(** [NS()] *)
Definition NS : value := VNS ∅.

(** Recursively converts a dictionary into a namespace.  The mappings
    of the universe have string keys, which [NS( **{...})] takes as
    keywords; a mapping with a key of another type is no [value]. *)
Fixpoint dict_to_namespace (d : value) : value :=
  match d with
  | VDict items => VNS (dict_to_namespace <$> items)
  | _ => d
  end.

Record config : Type := Build {
  default_settings : value;
  micr_interface : value;
  micr_wavelength : value;
  micr_ranges : value;
  camera : value
}.

Section Loading.
Context `{!Files}.

(** [str(v)] *)
Definition str (v : value) : string :=
  match v with
  | VStr s => s
  | _ => repr v
  end.

(** [config.settings] *)
Definition settings : outcome value :=
  let file := joinpath directory _settings_file in
  stream ← open_read file;
  safe_load stream.

(** [config.microscope] *)
Definition microscope (default_settings : value) : outcome (value * value * value) :=
  name ← getitem default_settings "microscope";
  let file := joinpath directory (str name +:+ ".yaml") in
  stream ← open_read file;
  default ← safe_load stream;
  interface ← getitem default "interface";
  wavelength ← getitem default "wavelength";
  micr_ranges ← getitem default "ranges";
  mret (interface, wavelength, micr_ranges).

(** [config.load_camera_config] *)
Definition load_camera_config (default_settings : value) : outcome value :=
  name ← getitem default_settings "camera";
  let file := joinpath directory (str name +:+ ".yaml") in
  stream ← open_read file;
  loaded ← safe_load stream;
  mret (dict_to_namespace loaded).

(** [except FileNotFoundError] *)
Definition is_FileNotFoundError (e : exception) : bool :=
  bool_decide (exc_class e = "FileNotFoundError").

(** [config.__init__] *)
Definition __init__ (name : option string) : outcome config :=
  default_settings ← settings;
  default_settings ←
    match name with
    | Some name => setitem default_settings "microscope" (VStr name)
    | None => Return default_settings
    end;
  '(interface, wavelength, ranges) ← microscope default_settings;
  camera ←
    match load_camera_config default_settings with
    | Return camera => Return camera
    | Raise e => if is_FileNotFoundError e then Return NS else Raise e
    end;
  mret (Build default_settings interface wavelength ranges camera).

End Loading.

End Config.

(** ** A stub device, codec and file tree

    Small collaborators on which the definitions above can be run: the
    stub session of the test scenarios ([echo] returns its single argument,
    [boom] raises [DeviceFault("overheat")]), with a camera-like attribute
    [default_binsize] and its getter. *)

Module Stub.

Definition echo (args kwargs : value) (tem : Z) : outcome value * Z :=
  match args with
  | VTuple [x] => (Return x, tem)
  | _ => (Raise (TypeError "echo() takes exactly one argument"), tem)
  end.

Definition boom (args kwargs : value) (tem : Z) : outcome value * Z :=
  (Raise (Exc "DeviceFault" [VStr "overheat"]), tem).

Definition get_binning (args kwargs : value) (tem : Z) : outcome value * Z :=
  (Return (VInt tem), tem).

(** The device state is the bin size. *)
Global Instance device : Device Z := {|
  get_microscope := λ _, Return 1;
  class_name := "StubDevice";
  device_name := λ _, "stub";
  lookup := λ tem name,
    if bool_decide (name = "echo") then Some (Callable echo)
    else if bool_decide (name = "boom") then Some (Callable boom)
    else if bool_decide (name = "get_binning") then Some (Callable get_binning)
    else if bool_decide (name = "default_binsize") then Some (Data (VInt tem))
    else None
|}.

(** The decoded form of the texts that the stub codec knows. *)
Definition vocabulary : list (string * value) :=
  [ ("exit", VStr "exit");
    ("kill", VStr "kill");
    ("hello", VStr "hello");
    ("echo 42", VDict {[ "func_name" := VStr "echo"; "args" := VTuple [VInt 42] ]});
    ("boom", VDict {[ "func_name" := VStr "boom" ]});
    ("zoom", VDict {[ "func_name" := VStr "zoom" ]});
    ("get_binning", VDict {[ "attr_name" := VStr "get_binning" ]});
    ("default_binsize", VDict {[ "attr_name" := VStr "default_binsize" ]});
    ("both", VDict {[ "func_name" := VStr "echo"; "attr_name" := VStr "default_binsize";
                      "args" := VTuple [VInt 42] ]}) ].

Fixpoint decode (words : list (string * value)) (text : string) : outcome value :=
  match words with
  | [] => Raise (Exc "ValueError" [VStr "malformed payload"])
  | (word, v) :: words' => if bool_decide (text = word) then Return v else decode words' text
  end.

(** A text codec with a fixed vocabulary; a result encodes as its status
    word. *)
Global Instance codec : Serializer := {|
  loader := λ data, decode vocabulary (String.string_of_list_byte data);
  dumper := λ response,
    match response with
    | VTuple [VInt status; _] =>
        Return (String.list_byte_of_string
                  (if bool_decide (status = 200) then "ok" else "error"))
    | _ => Raise (TypeError "not a result")
    end
|}.

(** A directory that holds [settings.yaml] and [simulate.yaml] and no
    camera file. *)
Global Instance files : Files := {|
  directory := "/srv";
  joinpath := λ dir name, dir +:+ "/" +:+ name;
  open_read := λ path,
    if bool_decide (path = "/srv/settings.yaml") then Return "settings"
    else if bool_decide (path = "/srv/simulate.yaml") then Return "simulate"
    else Raise FileNotFoundError;
  safe_load := λ text,
    if bool_decide (text = "settings")
    then Return (VDict {[ "microscope" := VStr "simulate"; "camera" := VStr "tecnai" ]})
    else Return (VDict {[ "interface" := VStr "simulate";
                          "wavelength" := VInt 25;
                          "ranges" := VDict ∅ ]});
  repr := type_name
|}.

(** Sockets between processes of one machine: [socket.timeout] is the
    only class of its kind, and [send] takes all it is given. *)
Global Instance sockets : Sockets := {|
  is_socket_timeout := λ e,
    bool_decide (exc_class e = "timeout") || bool_decide (exc_class e = "TimeoutError");
  transmit := λ _ data, Return (length data)
|}.

(** The server thread waiting in [requests.get] with [cmd] submitted. *)
Definition serving (cmd : value) : system Z :=
  System (Server (Running 1 AtGet) [LogInitialized "stub"])
         (Listener (Handling (Conn [] [] false) HGet) [] [] [])
         (Shared (Queue.Make 1 [cmd]) (Queue.new 1) false).

(** The server thread in its handler of [queue.Empty], not yet at the
    test of the stop event, when [cmd] has been submitted and the stop event
    set in the meantime. *)
Definition overtaken (cmd : value) : system Z :=
  System (Server (Running 1 Timedout) [LogInitialized "stub"])
         (Listener (Handling (Conn [] [] false) HGet) [] [] [])
         (Shared (Queue.Make 1 [cmd]) (Queue.new 1) true).

Definition silent : connection := Conn [] [] false.
Definition talking (text : string) : connection :=
  Conn [Return (String.list_byte_of_string text)] [] false.

End Stub.

(** ** One exchange between a handler and the server thread *)

Section Exchange.
Context {Dev : Type} `{!Device Dev} {sockets : Sockets} `{!Serializer}.




End Exchange.

(** ** More of Python *)

(** [bool(v)]: the truth value that [or] and [if] test. *)
Definition truthy (v : value) : bool :=
  match v with
  | VNone => false
  | VBool b => b
  | VInt n => negb (bool_decide (n = 0))
  | VFloat bits => negb (bool_decide (bits = 0) || bool_decide (bits = 9223372036854775808))
  | VStr s => negb (bool_decide (s = ""))
  | VBytes bs => negb (bool_decide (length bs = 0%nat))
  | VTuple items | VList items => negb (bool_decide (length items = 0%nat))
  | VDict d => negb (bool_decide (size d = 0%nat))
  | VNS _ => true
  end.

(** [v is None] *)
Definition is_None (v : value) : bool :=
  match v with
  | VNone => true
  | _ => false
  end.

(** [v == n] for an [int] literal [n] whose [float] has the bit pattern
    [bits]. *)
Definition eq_int (v : value) (n bits : Z) : bool :=
  match v with
  | VInt m => bool_decide (m = n)
  | VBool b => bool_decide ((if b then 1 else 0) = n)
  | VFloat f => bool_decide (f = bits)
  | _ => false
  end.

(** [hash(v)] succeeds. *)
Fixpoint hashable (v : value) : bool :=
  match v with
  | VList _ | VDict _ | VNS _ => false
  | VTuple items => forallb hashable items
  | _ => true
  end.

(** [range(v)]: how many times the loop runs. *)
Definition range (v : value) : outcome nat :=
  match v with
  | VInt n => Return (Z.to_nat n)
  | VBool b => Return (if b then 1%nat else 0%nat)
  | _ => Raise (TypeError ("'" +:+ type_name v +:+ "' object cannot be interpreted as an integer"))
  end.

(** ** [TEMController/tecnai_camera.py] *)

(** An acquired image, a COM object: its size and its pixels. *)
Record image : Type := Image {
  Height : nat;
  Width : nat;
  AsSafeArray : nat → nat → value
}.

(** The acquisition objects behind [self.acq] and [self.cam], with the
    state [Hw] of the hardware: assigning the two acquisition parameters
    (a refused assignment raises and changes nothing), acquiring, and the
    image size that the camera reports. *)
Class Acquisition (Hw : Type) : Type := {
  set_ExposureTime : value → Hw → outcome Hw;
  set_Binning : value → Hw → outcome Hw;
  AcquireImages : Hw → outcome (list image) * Hw;
  ImageSize : Hw → value
}.

Module TecnaiCamera.

Section Camera.
Context `{!Files} {Hw : Type} `{!Acquisition Hw}.

(** What [np.stack(sa).T] gives when [numpy] could be imported; [None]
    when the import failed and [np] is [False]. *)
Variable np : option (image → value).

(** [self.key] for a [key] that the class body does not define: the
    instance dictionary [self] decides. *)
Definition attribute (self : gmap string value) (key : string) : outcome value :=
  match self !! key with
  | Some v => Return v
  | None =>
      Raise (AttributeError ("'TecnaiCamera' object has no attribute '" +:+ key +:+ "'"))
  end.

(** [TecnaiCamera.load_defaults] *)
Definition load_defaults (self : gmap string value) : outcome (gmap string value) :=
  _conf ← Config.__init__ None;
  match Config.camera _conf with
  | VNS attrs => Return (attrs ∪ self)
  | other =>
      Raise (AttributeError ("'" +:+ type_name other
                             +:+ "' object has no attribute '__dict__'"))
  end.

(** The first two statements of [TecnaiCamera.__init__]; what follows
    connects to the hardware. *)
Definition init_defaults (name : string) : outcome (gmap string value) :=
  load_defaults {[ "name" := VStr name ]}.

Definition get_binning (self : gmap string value) : outcome value :=
  attribute self "default_binsize".

Definition get_camera_dimensions (self : gmap string value) : outcome value :=
  attribute self "dimensions".

Definition get_name (self : gmap string value) : outcome value :=
  attribute self "name".

(** The value that [get_image] builds from the image. *)
Definition frame (img : image) : value :=
  match np with
  | Some stack_T => stack_T img
  | None =>
      VList ((λ r, VList ((λ c, AsSafeArray img r c) <$> seq 0 (Height img)))
               <$> seq 0 (Width img))
  end.

(** [TecnaiCamera.get_image] *)
Definition get_image (self : gmap string value) (exposure binning : value) (hw : Hw)
  : outcome value * Hw :=
  match (if truthy exposure then Return exposure
         else attribute self "default_exposure") with
  | Raise e => (Raise e, hw)
  | Return exposure_time =>
      match set_ExposureTime exposure_time hw with
      | Raise e => (Raise e, hw)
      | Return hw1 =>
          match set_Binning binning hw1 with
          | Raise e => (Raise e, hw1)
          | Return hw2 =>
              match AcquireImages hw2 with
              | (Raise e, hw3) => (Raise e, hw3)
              | (Return [], hw3) =>
                  (Raise (Exc "IndexError" [VStr "list index out of range"]), hw3)
              | (Return (img :: _), hw3) => (Return (frame img), hw3)
              end
          end
      end
  end.

(** [TecnaiCamera.get_image_dimensions] *)
Definition get_image_dimensions (hw : Hw) : value := ImageSize hw.

(** The list comprehension of [get_movie], [n] frames to go. *)
Fixpoint frames (self : gmap string value) (exposure binsize : value) (n : nat) (hw : Hw)
  : outcome (list value) * Hw :=
  match n with
  | O => (Return [], hw)
  | S n' =>
      match get_image self exposure binsize hw with
      | (Raise e, hw') => (Raise e, hw')
      | (Return img, hw') =>
          match frames self exposure binsize n' hw' with
          | (Raise e, hw'') => (Raise e, hw'')
          | (Return imgs, hw'') => (Return (img :: imgs), hw'')
          end
      end
  end.

(** [TecnaiCamera.get_movie] *)
Definition get_movie (self : gmap string value) (n_frames exposure binsize : value)
    (hw : Hw) : outcome value * Hw :=
  match range n_frames with
  | Raise e => (Raise e, hw)
  | Return n =>
      match frames self exposure binsize n hw with
      | (Raise e, hw') => (Raise e, hw')
      | (Return imgs, hw') => (Return (VList imgs), hw')
      end
  end.

(** [imgs] are what successive calls of [get_image] returned, the first
    one on the hardware as [hw] and each further one on the hardware as the
    call before it left it; [hw'] is the hardware after the last call. *)
Inductive taken_in_turn (self : gmap string value) (exposure binsize : value)
  : Hw → list value → Hw → Prop :=
  | taken_none hw : taken_in_turn self exposure binsize hw [] hw
  | taken_next hw img hw1 imgs hw' :
      get_image self exposure binsize hw = (Return img, hw1) →
      taken_in_turn self exposure binsize hw1 imgs hw' →
      taken_in_turn self exposure binsize hw (img :: imgs) hw'.

End Camera.

End TecnaiCamera.

(** ** The client of [tests.py] *)

Module Client.

Section SocketSend.
Context `{!Serializer}.

(** [utils.exceptions.exception_list], which is not among the sources: an
    error code stands for a class, given by its name; the class keeps the
    arguments it is built with, as [Exception] does. *)
Variable exception_list : gmap string string.

(** The order in which a [dict] yields its keys. *)
Variable key_order : gmap string value → list string.

(** How a value prints inside an f-string. *)
Variable format : value → string.

(** The items that unpacking takes from [v]. *)
Definition iterate (v : value) : outcome (list value) :=
  match v with
  | VTuple items | VList items => Return items
  | VStr s => Return ((λ c, VStr (String c "")) <$> String.list_ascii_of_string s)
  | VBytes bs => Return ((λ b, VInt (Z.of_N (Byte.to_N b))) <$> bs)
  | VDict d => Return (VStr <$> key_order d)
  | _ => Raise (TypeError ("cannot unpack non-iterable " +:+ type_name v +:+ " object"))
  end.

(** [v] is the tuple of [items], or the list that a codec without tuples
    turns it into. *)
Definition sequence (v : value) (items : list value) : Prop :=
  v = VTuple items ∨ v = VList items.

(** [a, b = v] *)
Definition unpack2 (v : value) : outcome (value * value) :=
  items ← iterate v;
  match items with
  | [a; b] => Return (a, b)
  | _ => Raise (Exc "ValueError" [VStr "wrong number of values to unpack (expected 2)"])
  end.

(** [exception_list.get(error_code, TEMCommunicationError)] *)
Definition exception_class (error_code : value) : outcome string :=
  if hashable error_code then
    match error_code with
    | VStr code => Return (default "TEMCommunicationError" (exception_list !! code))
    | _ => Return "TEMCommunicationError"
    end
  else Raise (TypeError ("unhashable type: '" +:+ type_name error_code +:+ "'")).

(** The first four lines of [socket_send]: the command as it is sent. *)
Definition prepare (d : gmap string value) : gmap string value :=
  let d := if is_None (default VNone (d !! "args"))
           then <["args" := VTuple []]> d else d in
  if is_None (default VNone (d !! "kwargs"))
  then <["kwargs" := VDict ∅]> d else d.

(** [socket_send] past its [socket.recv(1024)]: what the call returns or
    raises when [response] is the chunk that [recv] returned. *)
Definition socket_send (d : gmap string value) (response : list byte) : outcome value :=
  match response with
  | [] =>
      Raise (RuntimeError ("Received empty response when evaluating "
                           +:+ format (VDict (prepare d))))
  | _ :: _ =>
      loaded ← loader response;
      '(status, data) ← unpack2 loaded;
      if eq_int status 200 4641240890982006784 then Return data
      else if eq_int status 500 4647503709213818880 then
        '(error_code, args) ← unpack2 data;
        cls ← exception_class error_code;
        args ← iterate args;
        Raise (Exc cls args)
      else Raise (Exc "ConnectionError" [VStr ("Unknown status code: " +:+ format status)])
  end.

(** [socket_send] from its [socket.recv(1024)] on, [socket] being the
    client's end of the connection: the call reads once, takes at most 1024
    bytes of what has arrived and decodes them; what the server sent beyond
    them stays on the socket.  [None]: nothing has arrived and the client
    waits. *)
Definition socket_send_recv (d : gmap string value) (socket : connection)
  : option (outcome value * connection) :=
  match recv socket 1024 with
  | None => None
  | Some (Raise e, socket') => Some (Raise e, socket')
  | Some (Return response, socket') => Some (socket_send d response, socket')
  end.

End SocketSend.

End Client.

(** ** Fixtures for runs of the bridge *)

Module Fixture.

(** A codec that decodes every chunk to [v]; a response encodes as the
    bytes of its status word. *)
Definition const_codec (v : value) : Serializer := {|
  loader := λ _, Return v;
  dumper := λ response,
    match response with
    | VTuple [VInt status; _] =>
        Return (String.list_byte_of_string
                  (if bool_decide (status = 200) then "ok" else "error"))
    | _ => Raise (TypeError "not a result")
    end
|}.

(** One byte on the wire. *)
Definition ping : connection := Conn [Return [Byte.x2a]] [] false.

(** The stub server thread initialized, and the handler of a client that
    sent one byte holding the decoded [cmd]. *)
Definition decoded (cmd : value) : system Z :=
  System (Server (Running 1 AtGet) [LogInitialized "stub"])
         (Listener (Handling (Conn [] [] false) (HPut cmd)) [] [] [])
         (Shared (Queue.new 1) (Queue.new 1) false).

(** The same with [cmd] submitted. *)
Definition submitted (cmd : value) : system Z :=
  System (Server (Running 1 AtGet) [LogInitialized "stub"])
         (Listener (Handling (Conn [] [] false) HGet) [] [] [])
         (Shared (Queue.Make 1 [cmd]) (Queue.new 1) false).

(** A transport that fails on the first [recv]. *)
Definition broken : connection :=
  Conn [Raise (Exc "ConnectionResetError" [VInt 104; VStr "Connection reset by peer"])]
       [] false.

(** A directory without any file. *)
Definition no_files : Files := {|
  directory := "/srv";
  joinpath := λ dir name, dir +:+ "/" +:+ name;
  open_read := λ _, Raise FileNotFoundError;
  safe_load := λ _, Return VNone;
  repr := type_name
|}.

(** A directory whose [settings.yaml] names a microscope and no camera. *)
Definition no_camera_key : Files := {|
  directory := "/srv";
  joinpath := λ dir name, dir +:+ "/" +:+ name;
  open_read := λ path,
    if bool_decide (path = "/srv/settings.yaml") then Return "settings"
    else if bool_decide (path = "/srv/simulate.yaml") then Return "simulate"
    else Raise FileNotFoundError;
  safe_load := λ text,
    if bool_decide (text = "settings")
    then Return (VDict {[ "microscope" := VStr "simulate" ]})
    else Return (VDict {[ "interface" := VStr "simulate";
                          "wavelength" := VInt 25;
                          "ranges" := VDict ∅ ]});
  repr := type_name
|}.

(** The content of a camera file. *)
Definition camera_yaml : gmap string value :=
  {[ "name" := VStr "ceta";
     "default_binsize" := VInt 2;
     "dimensions" := VList [VInt 2048; VInt 2048];
     "correction" := VDict {[ "gain" := VBool true ]} ]}.

(** A directory with the settings, a second microscope file and the
    camera file. *)
Definition with_camera : Files := {|
  directory := "/srv";
  joinpath := λ dir name, dir +:+ "/" +:+ name;
  open_read := λ path,
    if bool_decide (path = "/srv/settings.yaml") then Return "settings"
    else if bool_decide (path = "/srv/simulate.yaml") then Return "simulate"
    else if bool_decide (path = "/srv/titan.yaml") then Return "titan"
    else if bool_decide (path = "/srv/tecnai.yaml") then Return "camera"
    else Raise FileNotFoundError;
  safe_load := λ text,
    if bool_decide (text = "settings")
    then Return (VDict {[ "microscope" := VStr "simulate"; "camera" := VStr "tecnai" ]})
    else if bool_decide (text = "camera") then Return (VDict camera_yaml)
    else Return (VDict {[ "interface" := VStr text;
                          "wavelength" := VInt 25;
                          "ranges" := VDict ∅ ]});
  repr := type_name
|}.

(** A directory whose camera file is empty: the YAML parser gives [None]
    for it. *)
Definition empty_camera : Files := {|
  directory := "/srv";
  joinpath := λ dir name, dir +:+ "/" +:+ name;
  open_read := λ path,
    if bool_decide (path = "/srv/settings.yaml") then Return "settings"
    else if bool_decide (path = "/srv/simulate.yaml") then Return "simulate"
    else if bool_decide (path = "/srv/tecnai.yaml") then Return ""
    else Raise FileNotFoundError;
  safe_load := λ text,
    if bool_decide (text = "settings")
    then Return (VDict {[ "microscope" := VStr "simulate"; "camera" := VStr "tecnai" ]})
    else if bool_decide (text = "") then Return VNone
    else Return (VDict {[ "interface" := VStr text;
                          "wavelength" := VInt 25;
                          "ranges" := VDict ∅ ]});
  repr := type_name
|}.

(** A camera that counts its acquisitions and gives a frame of 3 by 2
    pixels, numbered by row and column. *)
Definition counting_camera : Acquisition nat := {|
  set_ExposureTime := λ _ hw, Return hw;
  set_Binning := λ _ hw, Return hw;
  AcquireImages := λ hw,
    (Return [Image 2 3 (λ r c, VInt (Z.of_nat (10 * r + c)))], S hw);
  ImageSize := λ _, VTuple [VInt 3; VInt 2]
|}.

(** A codec that decodes the bytes of ["error"] to [r] and any other
    chunk to [cmd]; a response encodes as the bytes of its status word. *)
Definition two_way (cmd r : value) : Serializer := {|
  loader := λ bytes,
    if bool_decide (String.string_of_list_byte bytes = "error") then Return r
    else Return cmd;
  dumper := λ response,
    match response with
    | VTuple [VInt status; _] =>
        Return (String.list_byte_of_string
                  (if bool_decide (status = 200) then "ok" else "error"))
    | _ => Raise (TypeError "not a result")
    end
|}.

(** A registry that knows one error code. *)
Definition registry : gmap string string := {[ "DeviceFault" := "DeviceFault" ]}.

End Fixture.

(** ** Shapes of configuration data *)

(** What a YAML document holds: no namespace at any level that is reached
    through the values of mappings. *)
Fixpoint plain (v : value) : Prop :=
  match v with
  | VNS _ => False
  | VDict items => map_Forall (λ _ (P : Prop), P) (plain <$> items)
  | _ => True
  end.

(** No mapping is left at any level that is reached through the
    attributes of namespaces. *)
Fixpoint namespaces_only (v : value) : Prop :=
  match v with
  | VDict _ => False
  | VNS attrs => map_Forall (λ _ (P : Prop), P) (namespaces_only <$> attrs)
  | _ => True
  end.

(** The number of mappings and namespaces nested in a value, plus one. *)
Fixpoint weight (v : value) : nat :=
  match v with
  | VDict items | VNS items =>
      S (map_fold (λ _ (n : nat) acc, (n + acc)%nat) 0%nat (weight <$> items))
  | _ => 1%nat
  end.

(** ** Polling for the TEM in [main] *)

(** The calls of [time.sleep(0.05)] that the [for] loop of [main] makes
    before it is left. *)
Fixpoint sleeps_for_tem (attempts : nat) (initialized : nat → bool) (poll : nat) : nat :=
  match attempts with
  | O => O
  | S attempts' =>
      if initialized poll then O
      else S (sleeps_for_tem attempts' initialized (S poll))
  end.

(** * Properties *)

(** ** The single-slot channels *)

Section QueueFacts.
Context {A : Type}.
Implicit Types q : Queue.t A.

Lemma put_items q x q' :
  Queue.put q x = Some q' →
  Queue.full q = false
  ∧ Queue.maxsize q' = Queue.maxsize q
  ∧ Queue.items q' = Queue.items q ++ [x].
Proof.
  unfold Queue.put. destruct (Queue.full q); [done|].
  intros [= <-]. done.
Qed.

Lemma get_items q x q' :
  Queue.get q = Some (x, q') →
  Queue.maxsize q' = Queue.maxsize q ∧ Queue.items q = x :: Queue.items q'.
Proof.
  unfold Queue.get. destruct (Queue.items q) as [|y rest] eqn:E; [done|].
  intros [= <- <-]. done.
Qed.

Lemma get_None q : Queue.get q = None ↔ Queue.items q = [].
Proof. unfold Queue.get. destruct (Queue.items q); split; done. Qed.

Lemma full_single_slot q :
  Queue.maxsize q = 1 → Queue.full q = false ↔ Queue.items q = [].
Proof.
  intros Hm. unfold Queue.full, Queue.qsize. rewrite Hm.
  destruct (Queue.items q) as [|y rest].
  - split; [done|]. intros _. repeat case_bool_decide; simpl in *; done || lia.
  - split; [|done]. repeat case_bool_decide; simpl in *; done || lia.
Qed.

Lemma put_empty_single_slot q x :
  Queue.maxsize q = 1 → Queue.items q = [] →
  Queue.put q x = Some (Queue.Make 1 [x]).
Proof.
  intros Hm Hi. unfold Queue.put.
  rewrite (proj2 (full_single_slot q Hm) Hi), Hm, Hi. done.
Qed.

Lemma put_single_slot q x q' :
  Queue.single_slot q → Queue.put q x = Some q' → Queue.single_slot q'.
Proof.
  intros [Hm Hl] Hput. destruct (put_items _ _ _ Hput) as (Hf & Hm' & Hi).
  apply (full_single_slot q Hm) in Hf.
  split; [congruence|]. rewrite Hi, Hf. simpl. lia.
Qed.

Lemma get_single_slot q x q' :
  Queue.single_slot q → Queue.get q = Some (x, q') → Queue.single_slot q'.
Proof.
  intros [Hm Hl] Hget. destruct (get_items _ _ _ Hget) as (Hm' & Hi).
  split; [congruence|]. rewrite Hi in Hl. simpl in Hl. lia.
Qed.
End QueueFacts.

(** ** The hand-over between the handler and the server thread *)

Section Bridge.
Context {Dev : Type} `{!Device Dev} {sockets : Sockets} `{!Serializer}.
Implicit Types (s : system Dev) (sv : server Dev) (sh : shared) (l : listener).

Lemma command_fields_dict (d : gmap string value) :
  command_fields (VDict d)
  = Return (default (default VNone (d !! "attr_name")) (d !! "func_name"),
            default (VTuple []) (d !! "args"),
            default (VDict ∅) (d !! "kwargs")).
Proof. reflexivity. Qed.

Lemma balanced_initial name : balanced (initial name : system Dev).
Proof. split; [reflexivity|]. split; [reflexivity|]. cbv. lia. Qed.

Lemma balanced_run sv l sh sv' sh' :
  balanced (System sv l sh) → run_step sv sh = Some (sv', sh') →
  balanced (System sv' l sh').
Proof.
  unfold balanced, in_flight, awaiting, run_step. simpl.
  intros (Hq & Hr & Hle) Hstep.
  destruct (state sv) as [name|tem [| |status ret fn]|tem|e] eqn:Est.
  - destruct (get_microscope name); simplify_eq; simpl; done.
  - destruct (Queue.get (requests sh)) as [[cmd q]|] eqn:Eget.
    + destruct (get_items _ _ _ Eget) as [Hm Hi]. rewrite Hi in Hle. simpl in Hle.
      destruct (command_fields cmd) as [[[fn args] kwargs]|e].
      * destruct (attempt tem fn args kwargs) as [[[status ret] tem'] entries].
        simplify_eq; simpl. repeat split; [congruence|done|lia].
      * simplify_eq; simpl. repeat split; [congruence|done|lia].
    + simplify_eq; simpl. done.
  - destruct (stop_program_event sh); simplify_eq; simpl; done.
  - destruct (Queue.put (responses sh) _) as [q|] eqn:Eput; [|done].
    destruct (put_items _ _ _ Eput) as (_ & Hm & Hi).
    simplify_eq; simpl. rewrite Hi, length_app. simpl.
    repeat split; [done|congruence|lia].
  - done.
  - done.
Qed.

Lemma balanced_listen sv l sh l' sh' :
  balanced (System sv l sh) → listen l sh = Some (l', sh') →
  balanced (System sv l' sh').
Proof.
  unfold balanced, in_flight, awaiting, listen, handle. simpl.
  intros (Hq & Hr & Hle) Hstep.
  destruct (lstate l) as [| |conn [| |data|]|] eqn:El.
  - destruct (stop_program_event sh); simplify_eq; simpl; done.
  - destruct (backlog l); simplify_eq; simpl; done.
  - destruct (stop_program_event sh); simplify_eq; simpl; done.
  - destruct (recv conn BUFSIZE) as [[[[|b data]|e] conn']|]; simplify_eq; simpl;
      try done.
    destruct (loader (b :: data)) as [v|e]; simplify_eq; simpl; try done.
    destruct (eq_str v "exit" || eq_str v "kill"); simplify_eq; simpl; done.
  - destruct (Queue.put (requests sh) data) as [q|] eqn:Eput; [|done].
    destruct (put_items _ _ _ Eput) as (_ & Hm & Hi).
    simplify_eq; simpl. rewrite Hi, length_app. simpl.
    repeat split; [congruence|done|lia].
  - destruct (Queue.get (responses sh)) as [[r q]|] eqn:Eget; [|done].
    destruct (get_items _ _ _ Eget) as [Hm Hi]. rewrite Hi in Hle. simpl in Hle.
    destruct (dumper r) as [bytes|e];
      [unfold send in Hstep; destruct (transmit conn bytes); simpl in Hstep|];
      simplify_eq; simpl; (repeat split; [done|congruence|lia]).
  - done.
Qed.

Lemma balanced_step s s' : balanced s → step s s' → balanced s'.
Proof.
  intros Hb Hstep. destruct Hstep.
  - eapply balanced_run; eauto.
  - eapply balanced_listen; eauto.
  - exact Hb.
  - exact Hb.
Qed.

Lemma balanced_steps s s' : balanced s → rtc step s s' → balanced s'.
Proof.
  intros Hb Hsteps. induction Hsteps as [|s1 s2 s3 Hstep _ IH]; [done|].
  apply IH. eapply balanced_step; eauto.
Qed.

Lemma reachable_balanced name s : reachable name s → balanced s.
Proof. apply balanced_steps, balanced_initial. Qed.

(** In a reachable state neither thread ever waits on a full queue: the
    server thread finds [responses] empty when it has a result to put. *)
Lemma reachable_responses_free name s tem status ret fn :
  reachable name s → state (srv s) = Running tem (AtPut status ret fn) →
  Queue.items (responses (chan s)) = [] ∧ Queue.items (requests (chan s)) = [].
Proof.
  intros Hr Hst. destruct (reachable_balanced _ _ Hr) as (_ & _ & Hle).
  unfold in_flight, awaiting in Hle. rewrite Hst in Hle.
  destruct (Queue.items (responses (chan s))), (Queue.items (requests (chan s)));
    simpl in Hle; try done; destruct (lstate (lsn s)) as [| |? []|]; lia.
Qed.

Lemma reachable_request_alone name s cmd q :
  reachable name s → Queue.get (requests (chan s)) = Some (cmd, q) →
  q = Queue.Make 1 [] ∧ responses (chan s) = Queue.Make 1 []
  ∧ ∀ tem status ret fn, state (srv s) ≠ Running tem (AtPut status ret fn).
Proof.
  intros Hr Hget. destruct (reachable_balanced _ _ Hr) as (Hq & Hp & Hle).
  destruct (get_items _ _ _ Hget) as [Hm Hi].
  unfold in_flight, awaiting in Hle. rewrite Hi in Hle. simpl in Hle.
  assert (length (Queue.items q) = 0 ∧ length (Queue.items (responses (chan s))) = 0
          ∧ match state (srv s) with Running _ (AtPut _ _ _) => False | _ => True end)%nat
    as (Hlq & Hlr & Hpos).
  { destruct (state (srv s)) as [|? []| |]; destruct (lstate (lsn s)) as [| |? []|];
      repeat split; lia. }
  split; [|split].
  - destruct q as [m [|]]; simpl in *; [congruence|done].
  - destruct (responses (chan s)) as [m [|]]; simpl in *; [congruence|done].
  - intros tem status ret fn Hst. rewrite Hst in Hpos. done.
Qed.
End Bridge.

(** ** The Dispatch Loop *)

Section DispatchLoop.
Context {Dev : Type} `{!Device Dev} {sockets : Sockets} `{!Serializer}.
Implicit Types (s : system Dev) (sv : server Dev) (sh : shared).

(** The step that takes a command: the fields are looked up, the call is
    attempted, and the thread stands before [responses.put]. *)
Lemma take_command sv sh tem cmd q fn args kwargs :
  state sv = Running tem AtGet →
  Queue.get (requests sh) = Some (cmd, q) →
  command_fields cmd = Return (fn, args, kwargs) →
  run_step sv sh
  = Some (let '(status, ret, tem', entries) := attempt tem fn args kwargs in
          (Server (Running tem' (AtPut status ret fn)) (log sv ++ entries),
           Shared q (responses sh) (stop_program_event sh))).
Proof.
  intros Hst Hget Hcmd. unfold run_step. rewrite Hst, Hget, Hcmd.
  by destruct (attempt tem fn args kwargs) as [[[status ret] tem'] entries].
Qed.

(** Whatever the other threads did in the meantime, [responses.put] goes
    through at once: the result is alone in [responses], and [requests] is
    empty. *)
Lemma put_goes_through name s tem status ret fn :
  reachable name s →
  state (srv s) = Running tem (AtPut status ret fn) →
  run_step (srv s) (chan s)
  = Some (Server (Running tem AtGet) (log (srv s) ++ [LogServed status fn ret]),
          Shared (requests (chan s)) (Queue.Make 1 [VTuple [VInt status; ret]])
                 (stop_program_event (chan s)))
  ∧ Queue.items (requests (chan s)) = [].
Proof.
  intros Hr Hst.
  destruct (reachable_responses_free _ _ _ _ _ _ Hr Hst) as [Hresp Hreq].
  destruct (reachable_balanced _ _ Hr) as (_ & Hm & _).
  unfold run_step. rewrite Hst, (put_empty_single_slot _ _ Hm Hresp). done.
Qed.

(** Taking a command and serving it: two steps of the thread, after
    which the result is alone in [responses]. *)
Lemma serve_command name s tem cmd q fn args kwargs :
  reachable name s →
  state (srv s) = Running tem AtGet →
  Queue.get (requests (chan s)) = Some (cmd, q) →
  command_fields cmd = Return (fn, args, kwargs) →
  run_steps 2 (srv s) (chan s)
  = let '(status, ret, tem', entries) := attempt tem fn args kwargs in
    (Server (Running tem' AtGet)
            ((log (srv s) ++ entries) ++ [LogServed status fn ret]),
     Shared (Queue.Make 1 []) (Queue.Make 1 [VTuple [VInt status; ret]])
            (stop_program_event (chan s))).
Proof.
  intros Hr Hst Hget Hcmd.
  destruct (reachable_request_alone _ _ _ _ Hr Hget) as (-> & _ & _).
  pose proof (take_command _ _ _ _ _ _ _ _ Hst Hget Hcmd) as Htake.
  unfold run_steps. rewrite Htake.
  destruct (attempt tem fn args kwargs) as [[[status ret] tem'] entries].
  assert (reachable name (System (Server (Running tem' (AtPut status ret fn))
                                         (log (srv s) ++ entries))
                                 (lsn s)
                                 (Shared (Queue.Make 1 []) (responses (chan s))
                                         (stop_program_event (chan s))))) as Hr'.
  { eapply rtc_r; [exact Hr|]. destruct s as [sv l sh]. by apply step_run. }
  destruct (put_goes_through _ _ _ _ _ _ Hr' eq_refl) as [Hput _].
  simpl in Hput. rewrite Hput. done.
Qed.

Lemma attempt_raise tem fn args kwargs e tem' :
  evaluate tem fn args kwargs = (Raise e, tem') →
  attempt tem fn args kwargs
  = (500, VTuple [VStr (exc_class e); VTuple (exc_args e)], tem', [LogException e]).
Proof. unfold attempt. intros ->. reflexivity. Qed.

Lemma attempt_return tem fn args kwargs v tem' :
  evaluate tem fn args kwargs = (Return v, tem') →
  attempt tem fn args kwargs = (200, v, tem', []).
Proof. unfold attempt. intros ->. reflexivity. Qed.

Lemma published_failure name s tem cmd q fn args kwargs e tem' :
  reachable name s →
  state (srv s) = Running tem AtGet →
  Queue.get (requests (chan s)) = Some (cmd, q) →
  command_fields cmd = Return (fn, args, kwargs) →
  evaluate tem fn args kwargs = (Raise e, tem') →
  published (srv s) (chan s) = [failure e]
  ∧ state (run_steps 2 (srv s) (chan s)).1 = Running tem' AtGet.
Proof.
  intros Hr Hst Hget Hcmd Hev. unfold published.
  rewrite (serve_command _ _ _ _ _ _ _ _ Hr Hst Hget Hcmd).
  rewrite (attempt_raise _ _ _ _ _ _ Hev). done.
Qed.

Lemma published_success name s tem cmd q fn args kwargs v tem' :
  reachable name s →
  state (srv s) = Running tem AtGet →
  Queue.get (requests (chan s)) = Some (cmd, q) →
  command_fields cmd = Return (fn, args, kwargs) →
  evaluate tem fn args kwargs = (Return v, tem') →
  published (srv s) (chan s) = [success v]
  ∧ state (run_steps 2 (srv s) (chan s)).1 = Running tem' AtGet.
Proof.
  intros Hr Hst Hget Hcmd Hev. unfold published.
  rewrite (serve_command _ _ _ _ _ _ _ _ Hr Hst Hget Hcmd).
  rewrite (attempt_return _ _ _ _ _ _ Hev). done.
Qed.

(** Inside [while True] the thread always has a next step, and that
    step leaves the loop only from the handler of [queue.Empty] with the
    stop event set, or by an exception of the [cmd.get] lookups. *)
Lemma loop_step name s tem pos :
  reachable name s →
  state (srv s) = Running tem pos →
  ∃ sv' sh', run_step (srv s) (chan s) = Some (sv', sh')
    ∧ ((∃ tem' pos', state sv' = Running tem' pos')
       ∨ (pos = Timedout ∧ stop_program_event (chan s) = true
          ∧ state sv' = Terminated tem)
       ∨ (pos = AtGet ∧ ∃ cmd q e, Queue.get (requests (chan s)) = Some (cmd, q)
          ∧ command_fields cmd = Raise e ∧ state sv' = Died e)).
Proof.
  intros Hr Hst. unfold run_step. rewrite Hst.
  destruct pos as [| |status ret fn].
  - destruct (Queue.get (requests (chan s))) as [[cmd q]|] eqn:Eget.
    + destruct (command_fields cmd) as [[[fn args] kwargs]|e] eqn:Ecmd.
      * destruct (attempt tem fn args kwargs) as [[[status ret] tem'] entries].
        eexists _, _. split; [done|]. left. simpl. eauto.
      * eexists _, _. split; [done|]. right. right. split; [done|].
        exists cmd, q, e. done.
    + eexists _, _. split; [done|]. left. simpl. eauto.
  - destruct (stop_program_event (chan s)).
    + eexists _, _. split; [done|]. right. left. done.
    + eexists _, _. split; [done|]. left. simpl. eauto.
  - destruct (reachable_responses_free _ _ _ _ _ _ Hr Hst) as [Hresp _].
    destruct (reachable_balanced _ _ Hr) as (_ & Hm & _).
    rewrite (put_empty_single_slot _ _ Hm Hresp).
    eexists _, _. split; [done|]. left. simpl. eauto.
Qed.

(** Outside the scope of a command: a decoded payload that is no mapping
    has no [get], the lookups of [run] stand outside its [try], and the
    [AttributeError] ends the thread. *)
Lemma lookups_raise_without_get sv sh tem cmd q :
  state sv = Running tem AtGet →
  Queue.get (requests sh) = Some (cmd, q) →
  (∀ d, cmd ≠ VDict d) → (∀ attrs, cmd ≠ VNS attrs) →
  run_step sv sh
  = Some (Server (Died (AttributeError ("'" +:+ type_name cmd
                                        +:+ "' object has no attribute 'get'")))
                 (log sv),
          Shared q (responses sh) (stop_program_event sh)).
Proof.
  intros Hst Hget Hd Hns. unfold run_step. rewrite Hst, Hget.
  destruct cmd; try done; [by destruct (Hd d)|by destruct (Hns attrs)].
Qed.

Lemma timeout_only_when_empty sv sh sv' sh' tem tem' pos :
  state sv = Running tem pos →
  run_step sv sh = Some (sv', sh') →
  state sv' = Running tem' Timedout →
  pos = AtGet ∧ Queue.items (requests sh) = [].
Proof.
  unfold run_step. intros -> Hstep Hst'. destruct pos as [| |status ret fn].
  - destruct (Queue.get (requests sh)) as [[cmd q]|] eqn:Eget.
    + destruct (command_fields cmd) as [[[fn args] kwargs]|e].
      * destruct (attempt tem fn args kwargs) as [[[status ret] tem''] entries].
        simplify_eq; simpl in *; done.
      * simplify_eq; simpl in *; done.
    + by apply get_None in Eget.
  - destruct (stop_program_event sh); simplify_eq; simpl in *; done.
  - destruct (Queue.put _ _); simplify_eq; simpl in *; done.
Qed.
End DispatchLoop.

Section StubRuns.
Import Stub.

(** From start-up to the moment the command that [text] encodes has been
    submitted: the server thread initializes, a client connects and sends
    [text], the listener accepts, receives, decodes and submits. *)
Lemma serving_reachable text cmd :
  (0 < length (String.list_byte_of_string text) ≤ BUFSIZE)%nat →
  loader (String.list_byte_of_string text) = Return cmd →
  eq_str cmd "exit" || eq_str cmd "kill" = false →
  reachable None (serving cmd).
Proof.
  intros Hlen Hload Hword. unfold reachable, initial.
  eapply rtc_l; [apply step_run; reflexivity|].
  eapply rtc_l; [apply (step_connect _ _ _ (talking text))|].
  eapply rtc_l; [apply step_listen; reflexivity|].
  eapply rtc_l; [apply step_listen; reflexivity|].
  eapply rtc_l; [apply step_listen; reflexivity|].
  eapply rtc_l.
  { apply step_listen. cbn -[take drop BUFSIZE loader eq_str].
    rewrite take_ge, drop_ge by lia.
    destruct (String.list_byte_of_string text) as [|b bytes] eqn:E; [simpl in Hlen; lia|].
    rewrite Hload, Hword. reflexivity. }
  eapply rtc_l; [apply step_listen; reflexivity|].
  apply rtc_refl.
Qed.
End StubRuns.

Section DispatchClaims.
Context {Dev : Type} `{!Device Dev} {sockets : Sockets} `{!Serializer}.
Implicit Types (s : system Dev) (sv : server Dev) (sh : shared).

(** As long as the payloads in [requests] are mappings: a command whose
    execution raises is answered by the Failure result
    [(500, (class name, args))] and the thread is back at [requests.get];
    inside the loop the thread always has a next step, and that step ends
    the loop only in the handler of [queue.Empty] with the stop event set,
    which is entered only from a [requests.get] on an empty queue. *)
Theorem failure_is_answered_and_loop_survives name s tem pos :
  reachable name s →
  state (srv s) = Running tem pos →
  (∀ cmd q, Queue.get (requests (chan s)) = Some (cmd, q) → ∃ d, cmd = VDict d) →
  (∀ cmd q fn args kwargs e tem',
      pos = AtGet →
      Queue.get (requests (chan s)) = Some (cmd, q) →
      command_fields cmd = Return (fn, args, kwargs) →
      evaluate tem fn args kwargs = (Raise e, tem') →
      published (srv s) (chan s)
      = [VTuple [VInt 500; VTuple [VStr (exc_class e); VTuple (exc_args e)]]]
      ∧ state (run_steps 2 (srv s) (chan s)).1 = Running tem' AtGet)
  ∧ (∃ sv' sh', run_step (srv s) (chan s) = Some (sv', sh')
       ∧ ((∃ tem' pos', state sv' = Running tem' pos')
          ∨ (pos = Timedout ∧ stop_program_event (chan s) = true
             ∧ state sv' = Terminated tem)))
  ∧ (∀ sv' sh' tem',
       run_step (srv s) (chan s) = Some (sv', sh') →
       state sv' = Running tem' Timedout →
       pos = AtGet ∧ Queue.items (requests (chan s)) = []).
Proof.
  intros Hr Hst Hcmds. split; [|split].
  - intros cmd q fn args kwargs e tem' -> Hget Hcmd Hev.
    eapply published_failure; eauto.
  - destruct (loop_step _ _ _ _ Hr Hst) as (sv' & sh' & Hstep & Hcases).
    exists sv', sh'. split; [done|].
    destruct Hcases as [Hin|[Hout|(_ & cmd & q & e & Hget & Hcmd & _)]]; [by left|by right|].
    destruct (Hcmds _ _ Hget) as [d ->]. rewrite command_fields_dict in Hcmd. done.
  - intros sv' sh' tem' Hstep Hst'. eapply timeout_only_when_empty; eauto.
Qed.

(** C2 — a command that names an operation of the session whose call
    returns [v] is answered by [(200, v)]; a command whose evaluation
    raises [e] is answered by [(500, (class name of e, args of e))]. *)
Theorem result_is_status_and_payload name s tem cmd q fn args kwargs :
  reachable name s →
  state (srv s) = Running tem AtGet →
  Queue.get (requests (chan s)) = Some (cmd, q) →
  command_fields cmd = Return (fn, args, kwargs) →
  (∀ n op v tem',
      fn = VStr n →
      lookup tem n = Some (Callable op) →
      op args kwargs tem = (Return v, tem') →
      published (srv s) (chan s) = [VTuple [VInt 200; v]])
  ∧ (∀ e tem',
      evaluate tem fn args kwargs = (Raise e, tem') →
      published (srv s) (chan s)
      = [VTuple [VInt 500; VTuple [VStr (exc_class e); VTuple (exc_args e)]]]).
Proof.
  intros Hr Hst Hget Hcmd. split.
  - intros n op v tem' -> Hlook Hop.
    eapply published_success; eauto.
    unfold evaluate, getattr. rewrite Hlook. exact Hop.
  - intros e tem' Hev. eapply published_failure; eauto.
Qed.

(** What [run] does with [attr_name]: a command with [attr_name] and
    without [func_name] is dispatched on the [attr_name] value like a
    [func_name]; when the attribute of that name is callable it is called
    with the command's [args] and [kwargs], and the success payload is what
    the call returns. *)
Theorem attr_name_is_called name s tem d q n op v tem' :
  reachable name s →
  state (srv s) = Running tem AtGet →
  Queue.get (requests (chan s)) = Some (VDict d, q) →
  d !! "func_name" = None →
  d !! "attr_name" = Some (VStr n) →
  lookup tem n = Some (Callable op) →
  op (default (VTuple []) (d !! "args")) (default (VDict ∅) (d !! "kwargs")) tem
  = (Return v, tem') →
  published (srv s) (chan s) = [VTuple [VInt 200; v]].
Proof.
  intros Hr Hst Hget Hfn Hattr Hlook Hop.
  eapply (published_success name s tem (VDict d) q (VStr n) _ _ v tem' Hr Hst Hget).
  - rewrite command_fields_dict, Hfn, Hattr. reflexivity.
  - unfold evaluate, getattr. rewrite Hlook. exact Hop.
Qed.

(** C4 — a command whose selector is a name that does not resolve on
    the session is answered by a Failure whose kind is [AttributeError],
    the error of an unknown attribute name. *)
Theorem unknown_selector_is_attribute_error name s tem cmd q n args kwargs :
  reachable name s →
  state (srv s) = Running tem AtGet →
  Queue.get (requests (chan s)) = Some (cmd, q) →
  command_fields cmd = Return (VStr n, args, kwargs) →
  lookup tem n = None →
  published (srv s) (chan s)
  = [VTuple [VInt 500;
             VTuple [VStr "AttributeError";
                     VTuple [VStr ("'" +:+ class_name +:+ "' object has no attribute '"
                                   +:+ n +:+ "'")]]]].
Proof.
  intros Hr Hst Hget Hcmd Hlook.
  eapply (published_failure _ _ _ _ _ _ _ _
            (AttributeError ("'" +:+ class_name +:+ "' object has no attribute '"
                             +:+ n +:+ "'"))); eauto.
  unfold evaluate, getattr. rewrite Hlook. reflexivity.
Qed.

(** C9 — when a command has both keys, the selector is the value of
    [func_name]: the three lookups raise nothing, and the step that takes
    the command is the step that takes the same command without
    [attr_name]; the value of [attr_name] is the selector only when
    [func_name] is absent. *)
Theorem func_name_shadows_attr_name (d : gmap string value) f a :
  d !! "func_name" = Some f →
  d !! "attr_name" = Some a →
  command_fields (VDict d)
  = Return (f, default (VTuple []) (d !! "args"), default (VDict ∅) (d !! "kwargs"))
  ∧ (∀ sv tem m rest resp stop,
       state sv = Running tem AtGet →
       run_step sv (Shared (Queue.Make m (VDict d :: rest)) resp stop)
       = run_step sv (Shared (Queue.Make m (VDict (delete "attr_name" d) :: rest))
                             resp stop))
  ∧ (∀ d' : gmap string value,
       d' !! "func_name" = None →
       command_fields (VDict d')
       = Return (default VNone (d' !! "attr_name"),
                 default (VTuple []) (d' !! "args"),
                 default (VDict ∅) (d' !! "kwargs"))).
Proof.
  intros Hf Ha. split; [|split].
  - rewrite command_fields_dict, Hf. reflexivity.
  - intros sv tem m rest resp stop Hst.
    assert (command_fields (VDict (delete "attr_name" d)) = command_fields (VDict d)) as E.
    { rewrite !command_fields_dict.
      rewrite (lookup_delete_ne d "attr_name" "func_name") by discriminate.
      rewrite (lookup_delete_ne d "attr_name" "args") by discriminate.
      rewrite (lookup_delete_ne d "attr_name" "kwargs") by discriminate.
      rewrite Hf. reflexivity. }
    unfold run_step, Queue.get. rewrite Hst.
    cbn [requests Queue.items Queue.maxsize]. rewrite E. reflexivity.
  - intros d' Hnone. rewrite command_fields_dict, Hnone. reflexivity.
Qed.
End DispatchClaims.

(** *** The scenarios of the test plan, on the stub session *)

Section DispatchRuns.
Import Stub.

Ltac submitted text :=
  apply (serving_reachable text);
  [ vm_compute; lia | reflexivity | reflexivity ].

Ltac head_is_dict :=
  let cmd := fresh "cmd" in
  let q := fresh "q" in
  intros cmd q [= <- <-]; eexists; reflexivity.

Lemma failure_is_answered_and_loop_survives_witness :
  published (srv (serving (VDict {[ "func_name" := VStr "boom" ]})))
            (chan (serving (VDict {[ "func_name" := VStr "boom" ]})))
  = [VTuple [VInt 500; VTuple [VStr "DeviceFault"; VTuple [VStr "overheat"]]]].
Proof.
  refine (proj1 (proj1
    (failure_is_answered_and_loop_survives None
       (serving (VDict {[ "func_name" := VStr "boom" ]})) 1 AtGet _ eq_refl _)
    (VDict {[ "func_name" := VStr "boom" ]}) (Queue.Make 1 [])
    (VStr "boom") (VTuple []) (VDict ∅) (Exc "DeviceFault" [VStr "overheat"]) 1
    eq_refl eq_refl eq_refl eq_refl)).
  - submitted "boom".
  - head_is_dict.
Defined.

Lemma overtaken_reachable :
  reachable None (overtaken (VDict {[ "func_name" := VStr "boom" ]})).
Proof.
  unfold reachable, initial.
  eapply rtc_l; [apply step_run; reflexivity|].
  eapply rtc_l; [apply step_run; reflexivity|].
  eapply rtc_l; [apply (step_connect _ _ _ (talking "boom"))|].
  eapply rtc_l; [apply step_listen; reflexivity|].
  eapply rtc_l; [apply step_listen; reflexivity|].
  eapply rtc_l; [apply step_listen; reflexivity|].
  eapply rtc_l; [apply step_listen; reflexivity|].
  eapply rtc_l; [apply step_listen; reflexivity|].
  eapply rtc_l; [apply step_stop|].
  apply rtc_refl.
Qed.

(** C1 — the failing input.  A client sends the text [hello], which
    decodes to a [str]; it is neither [exit] nor [kill], so the handler
    submits it.  In [run] the first [cmd.get], which stands outside the
    [try], raises [AttributeError]: the thread has ended with the stop
    event clear, nothing is published, and the handler of that client
    waits in [responses.get] with no step left.  Besides, the thread can
    leave its loop while a command waits in [requests]: its [get] timed
    out, the command and the stop event came before the test of the event,
    and [break] leaves the command where it is. *)
Theorem non_mapping_payload_ends_dispatch_loop :
  loader (String.list_byte_of_string "hello") = Return (VStr "hello")
  ∧ reachable None (serving (VStr "hello"))
  ∧ run_step (srv (serving (VStr "hello"))) (chan (serving (VStr "hello")))
    = Some (Server (Died (AttributeError "'str' object has no attribute 'get'"))
                   [LogInitialized "stub"],
            Shared (Queue.Make 1 []) (Queue.new 1) false)
  ∧ run_step (Server (Died (AttributeError "'str' object has no attribute 'get'"))
                     [LogInitialized "stub"])
             (Shared (Queue.Make 1 []) (Queue.new 1) false)
    = None
  ∧ listen (lsn (serving (VStr "hello"))) (Shared (Queue.Make 1 []) (Queue.new 1) false)
    = None
  ∧ reachable None (overtaken (VDict {[ "func_name" := VStr "boom" ]}))
  ∧ run_step (srv (overtaken (VDict {[ "func_name" := VStr "boom" ]})))
             (chan (overtaken (VDict {[ "func_name" := VStr "boom" ]})))
    = Some (Server (Terminated 1) [LogInitialized "stub"; LogTerminating "stub"],
            Shared (Queue.Make 1 [VDict {[ "func_name" := VStr "boom" ]}])
                   (Queue.new 1) true).
Proof.
  split; [reflexivity|]. split; [submitted "hello"|].
  split; [reflexivity|]. split; [reflexivity|]. split; [reflexivity|].
  split; [exact overtaken_reachable|reflexivity].
Qed.

Lemma result_is_status_and_payload_witness :
  published (srv (serving (VDict {[ "func_name" := VStr "echo"; "args" := VTuple [VInt 42] ]})))
            (chan (serving (VDict {[ "func_name" := VStr "echo"; "args" := VTuple [VInt 42] ]})))
  = [VTuple [VInt 200; VInt 42]].
Proof.
  refine (proj1
    (result_is_status_and_payload None
       (serving (VDict {[ "func_name" := VStr "echo"; "args" := VTuple [VInt 42] ]}))
       1 _ (Queue.Make 1 []) (VStr "echo") (VTuple [VInt 42]) (VDict ∅)
       _ eq_refl eq_refl eq_refl)
    "echo" echo (VInt 42) 1 eq_refl eq_refl eq_refl).
  submitted "echo 42".
Defined.

Lemma attr_name_is_called_witness :
  published (srv (serving (VDict {[ "attr_name" := VStr "get_binning" ]})))
            (chan (serving (VDict {[ "attr_name" := VStr "get_binning" ]})))
  = [VTuple [VInt 200; VInt 1]].
Proof.
  refine (attr_name_is_called None
            (serving (VDict {[ "attr_name" := VStr "get_binning" ]}))
            1 _ (Queue.Make 1 []) "get_binning" get_binning (VInt 1) 1
            _ eq_refl eq_refl eq_refl eq_refl eq_refl eq_refl).
  submitted "get_binning".
Defined.

(** C3 — the failing input [{'attr_name': 'default_binsize'}]:
    [default_binsize] is a plain attribute of the session with value [1],
    and the command that names it under [attr_name] is answered by the
    Failure [(500, ('TypeError', ("'int' object is not callable",)))] and
    not by [(200, 1)], because [evaluate] calls whatever [getattr] gives;
    only an attribute that is callable, [get_binning] here, gives a
    Success under [attr_name], the result of calling it. *)
Lemma attr_name_is_not_read :
  lookup (1 : Z) "default_binsize" = Some (Data (VInt 1))
  ∧ published (srv (serving (VDict {[ "attr_name" := VStr "default_binsize" ]})))
              (chan (serving (VDict {[ "attr_name" := VStr "default_binsize" ]})))
    = [VTuple [VInt 500;
               VTuple [VStr "TypeError"; VTuple [VStr "'int' object is not callable"]]]]
  ∧ published (srv (serving (VDict {[ "attr_name" := VStr "default_binsize" ]})))
              (chan (serving (VDict {[ "attr_name" := VStr "default_binsize" ]})))
    ≠ [VTuple [VInt 200; VInt 1]]
  ∧ lookup (1 : Z) "get_binning" = Some (Callable get_binning)
  ∧ published (srv (serving (VDict {[ "attr_name" := VStr "get_binning" ]})))
              (chan (serving (VDict {[ "attr_name" := VStr "get_binning" ]})))
    = [VTuple [VInt 200; VInt 1]].
Proof.
  split; [reflexivity|]. split; [reflexivity|]. split; [vm_compute; discriminate|].
  split; reflexivity.
Qed.

Lemma unknown_selector_is_attribute_error_witness :
  published (srv (serving (VDict {[ "func_name" := VStr "zoom" ]})))
            (chan (serving (VDict {[ "func_name" := VStr "zoom" ]})))
  = [VTuple [VInt 500;
             VTuple [VStr "AttributeError";
                     VTuple [VStr "'StubDevice' object has no attribute 'zoom'"]]]].
Proof.
  refine (unknown_selector_is_attribute_error None
            (serving (VDict {[ "func_name" := VStr "zoom" ]}))
            1 _ (Queue.Make 1 []) "zoom" (VTuple []) (VDict ∅)
            _ eq_refl eq_refl eq_refl eq_refl).
  submitted "zoom".
Defined.

Lemma func_name_shadows_attr_name_witness :
  command_fields
    (VDict {[ "func_name" := VStr "echo"; "attr_name" := VStr "default_binsize";
              "args" := VTuple [VInt 42] ]})
  = Return (VStr "echo", VTuple [VInt 42], VDict ∅).
Proof.
  refine (proj1
    (func_name_shadows_attr_name (Dev := Z)
       {[ "func_name" := VStr "echo"; "attr_name" := VStr "default_binsize";
          "args" := VTuple [VInt 42] ]}
       (VStr "echo") (VStr "default_binsize") eq_refl eq_refl)).
Defined.
End DispatchRuns.

(** ** The Connection Handler and the Connection Listener *)

Section ListenerClaims.
Context {sockets : Sockets} `{!Serializer}.
Implicit Types (l : listener) (sh : shared) (conn : connection).

(** C5 — when [conn.recv] gives the empty chunk, or a chunk that decodes
    to ["exit"] or to ["kill"], the handler returns: the connection is
    closed with nothing more sent on it, and the queues are as they were,
    so nothing was submitted and nothing taken. *)
Theorem sentinel_closes_connection l sh conn data conn' :
  lstate l = Handling conn HRecv →
  recv conn BUFSIZE = Some (Return data, conn') →
  data = [] ∨ loader data = Return (VStr "exit") ∨ loader data = Return (VStr "kill") →
  listen l sh
  = Some (Listener Listening (backlog l) (finished l ++ [close conn']) (logged l), sh)
  ∧ sent (close conn') = sent conn
  ∧ closed (close conn') = true.
Proof.
  intros Hl Hrecv Hdata. unfold listen, handle. rewrite Hl, Hrecv.
  assert (sent conn' = sent conn) as Hsent.
  { unfold recv in Hrecv. destruct (incoming conn) as [|[bs|e] rest]; simplify_eq. done. }
  split; [|by split].
  destruct Hdata as [->|Hword]; [unfold leave; by rewrite app_nil_r|].
  destruct data as [|b data]; [unfold leave; by rewrite app_nil_r|].
  destruct Hword as [->| ->]; unfold leave; by rewrite app_nil_r.
Qed.

(** C6, as the code has it — [listen] calls [handle] itself: the step
    that accepts a connection puts the listener thread inside the handler
    of that connection, and while it is there no step of the thread takes
    a connection from the backlog; the thread is back in its accept loop
    only when the handler is over and the connection is closed. *)
Theorem listener_handles_inline l sh l' sh' :
  listen l sh = Some (l', sh') →
  (∀ conn rest,
      lstate l = Accepting → backlog l = conn :: rest →
      lstate l' = Handling conn HTop ∧ backlog l' = rest)
  ∧ (∀ conn pos,
      lstate l = Handling conn pos →
      backlog l' = backlog l
      ∧ ((∃ conn' pos', lstate l' = Handling conn' pos' ∧ finished l' = finished l)
         ∨ (∃ conn', lstate l' = Listening
                    ∧ finished l' = finished l ++ [conn'] ∧ closed conn' = true))).
Proof.
  intros Hstep. split.
  - intros conn rest Hl Hb. unfold listen in Hstep. rewrite Hl, Hb in Hstep.
    simplify_eq. done.
  - intros conn pos Hl. unfold listen in Hstep. rewrite Hl in Hstep.
    unfold handle in Hstep. destruct pos as [| |data|].
    + destruct (stop_program_event sh); simplify_eq; simpl; (split; [done|]);
        [right|left]; eauto.
    + destruct (recv conn BUFSIZE) as [[[[|b data]|e] conn']|]; simplify_eq; simpl;
        try (split; [done|]; right; eauto).
      destruct (loader (b :: data)) as [v|e]; simplify_eq; simpl;
        try (split; [done|]; right; eauto).
      destruct (eq_str v "exit" || eq_str v "kill"); simplify_eq; simpl;
        (split; [done|]); [right|left]; eauto.
    + destruct (Queue.put (requests sh) data); simplify_eq; simpl.
      split; [done|]. left. eauto.
    + destruct (Queue.get (responses sh)) as [[r q]|]; simplify_eq.
      destruct (dumper r) as [bytes|e];
        [unfold send in Hstep; destruct (transmit conn bytes); simpl in Hstep|];
        simplify_eq; simpl; (split; [done|]); [left|right|right]; eauto.
Qed.
End ListenerClaims.

Section ListenerRuns.
Import Stub.

Lemma sentinel_closes_connection_witness :
  listen (Listener (Handling (talking "exit") HRecv) [] [] [])
         (Shared (Queue.new 1) (Queue.new 1) false)
  = Some (Listener Listening [] [Conn [] [] true] [],
          Shared (Queue.new 1) (Queue.new 1) false).
Proof.
  refine (proj1
    (sentinel_closes_connection
       (Listener (Handling (talking "exit") HRecv) [] [] [])
       (Shared (Queue.new 1) (Queue.new 1) false)
       (talking "exit") (String.list_byte_of_string "exit") (Conn [] [] false)
       eq_refl eq_refl (or_intror (or_introl eq_refl)))).
Defined.

Lemma listener_handles_inline_witness :
  lstate (Listener (Handling silent HTop) [talking "boom"] [] []) = Handling silent HTop
  ∧ backlog (Listener (Handling silent HTop) [talking "boom"] [] []) = [talking "boom"].
Proof.
  refine (proj1
    (listener_handles_inline
       (Listener Accepting [silent; talking "boom"] [] [])
       (Shared (Queue.new 1) (Queue.new 1) false)
       (Listener (Handling silent HTop) [talking "boom"] [] [])
       (Shared (Queue.new 1) (Queue.new 1) false)
       eq_refl)
    silent [talking "boom"] eq_refl eq_refl).
Defined.

(** C6, as stated, fails: two clients have connected and the first one
    is silent.  The listener thread accepts the first, enters its handler
    and waits in [conn.recv]; it has no further step, and the second client
    stays in the backlog, unaccepted. *)
Lemma listener_waits_for_its_handler :
  let sh := Shared (Queue.new 1) (Queue.new 1) false in
  let accepted := Listener (Handling silent HTop) [talking "boom"] [] [] in
  let receiving := Listener (Handling silent HRecv) [talking "boom"] [] [] in
  listen (Listener Accepting [silent; talking "boom"] [] []) sh = Some (accepted, sh)
  ∧ listen accepted sh = Some (receiving, sh)
  ∧ listen receiving sh = None
  ∧ backlog receiving = [talking "boom"].
Proof. repeat split. Qed.
End ListenerRuns.

(** ** The capacity of the channels *)

Section ChannelClaims.
Context {Dev : Type} `{!Device Dev} {sockets : Sockets} `{!Serializer}.

(** C7 — in every reachable state of the threads of one device kind,
    [requests] holds at most one command and [responses] at most one
    result (commands and results under way, counted together, are at most
    one), and every [put] and every [get] that goes through on either queue
    leaves a queue within that bound. *)
Theorem channels_hold_at_most_one name (s : system Dev) :
  reachable name s →
  Queue.single_slot (requests (chan s))
  ∧ Queue.single_slot (responses (chan s))
  ∧ (in_flight s ≤ 1)%nat
  ∧ (∀ x q', Queue.put (requests (chan s)) x = Some q' → Queue.single_slot q')
  ∧ (∀ x q', Queue.get (requests (chan s)) = Some (x, q') → Queue.single_slot q')
  ∧ (∀ x q', Queue.put (responses (chan s)) x = Some q' → Queue.single_slot q')
  ∧ (∀ x q', Queue.get (responses (chan s)) = Some (x, q') → Queue.single_slot q').
Proof.
  intros Hr. destruct (reachable_balanced _ _ Hr) as (Hq & Hp & Hle).
  assert (awaiting s ≤ 1)%nat as Hw.
  { unfold awaiting. destruct (lstate (lsn s)) as [| |? []|]; lia. }
  assert (Queue.single_slot (requests (chan s))) as Hreq.
  { split; [done|]. unfold in_flight in Hle. lia. }
  assert (Queue.single_slot (responses (chan s))) as Hresp.
  { split; [done|]. unfold in_flight in Hle. lia. }
  split; [exact Hreq|]. split; [exact Hresp|]. split; [lia|].
  split; [|split; [|split]]; intros x q'.
  - by apply put_single_slot.
  - by apply get_single_slot.
  - by apply put_single_slot.
  - by apply get_single_slot.
Qed.
End ChannelClaims.

Lemma channels_hold_at_most_one_witness :
  Queue.single_slot (Queue.Make 1 [VDict {[ "func_name" := VStr "boom" ]}])
  ∧ Queue.single_slot (Queue.new 1 : Queue.t value).
Proof.
  pose proof (channels_hold_at_most_one None
                (Stub.serving (VDict {[ "func_name" := VStr "boom" ]}))
                (serving_reachable "boom" _ ltac:(vm_compute; lia) eq_refl eq_refl))
    as (Hreq & Hresp & _).
  exact (conj Hreq Hresp).
Defined.

(** ** Start-up *)

Lemma wait_for_tem_false attempts initialized poll :
  wait_for_tem attempts initialized poll = false
  ↔ ∀ i, (i < attempts)%nat → initialized (poll + i)%nat = false.
Proof.
  revert poll. induction attempts as [|n IH]; intros poll; simpl.
  - split; [intros _ i Hi; lia|done].
  - destruct (initialized poll) eqn:E.
    + split; [done|]. intros Hall. specialize (Hall 0%nat ltac:(lia)).
      rewrite Nat.add_0_r in Hall. congruence.
    + rewrite IH. split.
      * intros Hall [|i] Hi; [by rewrite Nat.add_0_r|].
        replace (poll + S i)%nat with (S poll + i)%nat by lia. apply Hall. lia.
      * intros Hall i Hi. replace (S poll + i)%nat with (poll + S i)%nat by lia.
        apply Hall. lia.
Qed.

(** [main] of the start-up section is [Process.main] up to its [try],
    for a command line that parses and threads that start. *)
Lemma main_is_start_of_process (w : Process.surroundings) opts :
  Process.parse_args w = inl opts →
  (∀ t, Process.start w t = Return ()) →
  match main opts (Process.tem_initialized w) with
  | Return threads =>
      Process.main w = Process.Served threads (Process.keyboard_interrupt w)
  | Raise e => Process.main w = Process.Aborted e [tem_server; tem_listener]
  end.
Proof.
  intros Hparse Hstart. unfold main, Process.main, Process.starting.
  rewrite Hparse, !Hstart.
  destruct (camera_option opts); [|done].
  by destruct (wait_for_tem 100 (Process.tem_initialized w) 0).
Qed.

Section StartUp.
Context {Dev : Type} `{!Device Dev} {sockets : Sockets} `{!Serializer}.
Implicit Types (sv : server Dev) (sh : shared) (l : listener).

End StartUp.



(** ** The configuration *)

Section ConfigClaims.
Context `{!Files}.

(** C10 — when the settings and the microscope file load, and opening
    the camera file named by the settings raises [FileNotFoundError], the
    constructor returns a configuration whose camera is the empty
    namespace. *)
Theorem missing_camera_file_is_empty_namespace
    name settings settings' interface wavelength ranges cam e :
  Config.settings = Return settings →
  match name with
  | Some name => setitem settings "microscope" (VStr name)
  | None => Return settings
  end = Return settings' →
  Config.microscope settings' = Return (interface, wavelength, ranges) →
  getitem settings' "camera" = Return cam →
  open_read (joinpath directory (Config.str cam +:+ ".yaml")) = Raise e →
  exc_class e = "FileNotFoundError" →
  Config.__init__ name
  = Return (Config.Build settings' interface wavelength ranges Config.NS).
Proof.
  intros Hset Hname Hmic Hcam Hopen Hclass.
  unfold Config.__init__. rewrite Hset. simpl. rewrite Hname. simpl.
  rewrite Hmic. simpl.
  unfold Config.load_camera_config. rewrite Hcam. simpl. rewrite Hopen. simpl.
  unfold Config.is_FileNotFoundError. rewrite Hclass. reflexivity.
Qed.
End ConfigClaims.

Lemma missing_camera_file_is_empty_namespace_witness :
  Config.__init__ None
  = Return (Config.Build
              (VDict {[ "microscope" := VStr "simulate"; "camera" := VStr "tecnai" ]})
              (VStr "simulate") (VInt 25) (VDict ∅) (VNS ∅)).
Proof.
  exact (missing_camera_file_is_empty_namespace None
           (VDict {[ "microscope" := VStr "simulate"; "camera" := VStr "tecnai" ]})
           (VDict {[ "microscope" := VStr "simulate"; "camera" := VStr "tecnai" ]})
           (VStr "simulate") (VInt 25) (VDict ∅) (VStr "tecnai") FileNotFoundError
           eq_refl eq_refl eq_refl eq_refl eq_refl eq_refl).
Defined.

(** * Further properties of the bridge *)

Section FixtureRuns.
Import Stub Fixture.

Lemma decoded_reachable cmd :
  eq_str cmd "exit" || eq_str cmd "kill" = false →
  @reachable Z device sockets (const_codec cmd) None (decoded cmd).
Proof.
  intros Hword. unfold reachable, initial.
  eapply rtc_l; [apply step_run; reflexivity|].
  eapply rtc_l; [apply (step_connect _ _ _ ping)|].
  eapply rtc_l; [apply step_listen; reflexivity|].
  eapply rtc_l; [apply step_listen; reflexivity|].
  eapply rtc_l; [apply step_listen; reflexivity|].
  eapply rtc_l.
  { apply step_listen. cbn -[eq_str]. rewrite Hword. reflexivity. }
  apply rtc_refl.
Qed.

Lemma submitted_reachable cmd :
  eq_str cmd "exit" || eq_str cmd "kill" = false →
  @reachable Z device sockets (const_codec cmd) None (submitted cmd).
Proof.
  intros Hword. eapply rtc_r; [by apply decoded_reachable|].
  apply (@step_listen Z device sockets (const_codec cmd)). reflexivity.
Qed.
End FixtureRuns.

Section BridgeExtras.
Context {Dev : Type} `{!Device Dev} {sockets : Sockets} `{!Serializer}.
Implicit Types (s : system Dev) (sv : server Dev) (sh : shared) (l : listener).

(** X1 — A command with neither [func_name] nor [attr_name] has the selector
    [None]: [getattr] refuses it with a [TypeError], inside the [try], so
    the command is answered by a Failure and the device is not touched. *)
Theorem missing_selector_is_type_error name s tem (d : gmap string value) q :
  reachable name s →
  state (srv s) = Running tem AtGet →
  Queue.get (requests (chan s)) = Some (VDict d, q) →
  d !! "func_name" = None →
  d !! "attr_name" = None →
  (∃ message,
      published (srv s) (chan s)
      = [VTuple [VInt 500; VTuple [VStr "TypeError"; VTuple [VStr message]]]])
  ∧ state (run_steps 2 (srv s) (chan s)).1 = Running tem AtGet.
Proof.
  intros Hr Hst Hget Hfn Hattr.
  destruct (published_failure name s tem (VDict d) q VNone
              (default (VTuple []) (d !! "args")) (default (VDict ∅) (d !! "kwargs"))
              (TypeError ("attribute name must be string, not '" +:+ type_name VNone +:+ "'"))
              tem Hr Hst Hget) as [Hpub Hdev].
  - rewrite command_fields_dict, Hfn, Hattr. reflexivity.
  - reflexivity.
  - split; [|exact Hdev]. eexists. exact Hpub.
Qed.

(** X2 — A command without [args] and without [kwargs] calls the operation
    with the empty tuple and the empty dict. *)
Theorem missing_arguments_default_to_empty name s tem (d : gmap string value) q n op v tem' :
  reachable name s →
  state (srv s) = Running tem AtGet →
  Queue.get (requests (chan s)) = Some (VDict d, q) →
  d !! "func_name" = Some (VStr n) →
  d !! "args" = None →
  d !! "kwargs" = None →
  lookup tem n = Some (Callable op) →
  op (VTuple []) (VDict ∅) tem = (Return v, tem') →
  published (srv s) (chan s) = [VTuple [VInt 200; v]]
  ∧ state (run_steps 2 (srv s) (chan s)).1 = Running tem' AtGet.
Proof.
  intros Hr Hst Hget Hfn Hargs Hkw Hlook Hop.
  eapply (published_success name s tem (VDict d) q (VStr n) (VTuple []) (VDict ∅)
            v tem' Hr Hst Hget).
  - rewrite command_fields_dict, Hfn, Hargs, Hkw. reflexivity.
  - unfold evaluate, getattr. rewrite Hlook. exact Hop.
Qed.

(** X3 — In a reachable state a handler that holds a decoded command never
    waits in [requests.put]: the queue is empty, the command goes in at
    once, and no result of an earlier command is left in [responses]. *)
Theorem handler_submit_goes_through name s conn data :
  reachable name s →
  lstate (lsn s) = Handling conn (HPut data) →
  listen (lsn s) (chan s)
  = Some (at_position (lsn s) conn HGet,
          Shared (Queue.Make 1 [data]) (responses (chan s)) (stop_program_event (chan s)))
  ∧ Queue.items (responses (chan s)) = [].
Proof.
  intros Hr Hl. destruct (reachable_balanced _ _ Hr) as (Hq & Hp & Hle).
  unfold in_flight, awaiting in Hle. rewrite Hl in Hle.
  assert (Queue.items (requests (chan s)) = [] ∧ Queue.items (responses (chan s)) = [])
    as [Hreq Hresp].
  { destruct (Queue.items (requests (chan s))), (Queue.items (responses (chan s)));
      simpl in Hle; try done; lia. }
  split; [|exact Hresp].
  unfold listen, handle. rewrite Hl, (put_empty_single_slot _ _ Hq Hreq). reflexivity.
Qed.

(** X4 — An error of the transport in [conn.recv], or of [loader] on what was
    received, ends the handler only: the connection is closed, nothing is
    sent, nothing is submitted, the exception is logged unless it is an
    instance of [socket.timeout] (of the class or of any subclass, as the
    [except] clause matches), and the listener is back at the top of its
    accept loop. *)
Theorem handler_error_closes_connection l sh conn conn' e :
  lstate l = Handling conn HRecv →
  recv conn BUFSIZE = Some (Raise e, conn')
  ∨ (∃ b data, recv conn BUFSIZE = Some (Return (b :: data), conn')
               ∧ loader (b :: data) = Raise e) →
  listen l sh
  = Some (Listener Listening (backlog l) (finished l ++ [close conn'])
                   (logged l ++ if is_socket_timeout e then [] else [e]),
          sh)
  ∧ sent (close conn') = sent conn.
Proof.
  intros Hl Herr.
  assert (sent conn' = sent conn) as Hsent.
  { destruct Herr as [Hrecv|(b & data & Hrecv & _)]; unfold recv in Hrecv;
      destruct (incoming conn) as [|[bs|e'] rest]; simplify_eq; done. }
  split; [|exact Hsent].
  unfold listen, handle. rewrite Hl.
  destruct Herr as [->|(b & data & -> & ->)]; reflexivity.
Qed.

(** X5 — A received chunk longer than [BUFSIZE] is cut: the handler decodes
    its first [BUFSIZE] bytes as one payload, and the bytes after them stay
    on the connection as the next chunk. *)
Theorem oversized_chunk_is_cut l sh conn bytes rest v :
  lstate l = Handling conn HRecv →
  incoming conn = Return bytes :: rest →
  (BUFSIZE < length bytes)%nat →
  loader (take BUFSIZE bytes) = Return v →
  eq_str v "exit" || eq_str v "kill" = false →
  listen l sh
  = Some (at_position l (Conn (Return (drop BUFSIZE bytes) :: rest) (sent conn) (closed conn))
                      (HPut v),
          sh).
Proof.
  intros Hl Hin Hlen Hload Hword. unfold listen, handle, recv. rewrite Hl, Hin.
  destruct (drop BUFSIZE bytes) as [|b later] eqn:Edrop.
  { apply (f_equal length) in Edrop. rewrite length_drop in Edrop. simpl in Edrop. lia. }
  destruct (take BUFSIZE bytes) as [|b' first] eqn:Etake.
  { apply (f_equal length) in Etake. rewrite length_take in Etake.
    change (length (@nil byte)) with 0%nat in Etake.
    assert (0 < BUFSIZE)%nat by (unfold BUFSIZE; lia). lia. }
  rewrite Hload, Hword. reflexivity.
Qed.






End BridgeExtras.

Section ShutdownAndExchange.
Context {Dev : Type} `{!Device Dev} {sockets : Sockets} `{!Serializer}.
Implicit Types (s : system Dev) (sv : server Dev) (sh : shared) (l : listener).

Lemma run_steps_add n m sv sh :
  run_steps (n + m) sv sh = run_steps m (run_steps n sv sh).1 (run_steps n sv sh).2.
Proof.
  revert sv sh. induction n as [|n IH]; intros sv sh; [done|]. simpl.
  destruct (run_step sv sh) as [[sv' sh']|] eqn:E; [apply IH|].
  simpl. destruct m as [|m]; [done|]. simpl. by rewrite E.
Qed.

(** X7 — With the stop event set and a command in [requests], what happens
    to the command depends on where the server thread stands.  At
    [requests.get] the thread still takes the command, serves it and
    publishes its result, and ends only after the next [requests.get] has
    timed out.  In its handler of [queue.Empty], where the command came
    after the [get] had timed out, the thread ends at once and the command
    stays in [requests], alone. *)
Theorem shutdown_serves_pending_command name s tem pos cmd q fn args kwargs :
  reachable name s →
  state (srv s) = Running tem pos →
  Queue.get (requests (chan s)) = Some (cmd, q) →
  command_fields cmd = Return (fn, args, kwargs) →
  stop_program_event (chan s) = true →
  (pos = AtGet →
   run_steps 4 (srv s) (chan s)
   = let '(status, ret, tem', entries) := attempt tem fn args kwargs in
     (Server (Terminated tem')
             ((((log (srv s) ++ entries) ++ [LogServed status fn ret]))
              ++ [LogTerminating (device_name tem')]),
      Shared (Queue.Make 1 []) (Queue.Make 1 [VTuple [VInt status; ret]]) true))
  ∧ (pos = Timedout →
     run_step (srv s) (chan s)
     = Some (Server (Terminated tem) (log (srv s) ++ [LogTerminating (device_name tem)]),
             chan s)
     ∧ Queue.items (requests (chan s)) = [cmd]
     ∧ run_steps 4 (srv s) (chan s)
       = (Server (Terminated tem) (log (srv s) ++ [LogTerminating (device_name tem)]),
          chan s)).
Proof.
  intros Hr Hst Hget Hcmd Hstop. split.
  - intros ->.
    rewrite (run_steps_add 2 2), (serve_command _ _ _ _ _ _ _ _ Hr Hst Hget Hcmd), Hstop.
    by destruct (attempt tem fn args kwargs) as [[[status ret] tem'] entries].
  - intros ->.
    assert (run_step (srv s) (chan s)
            = Some (Server (Terminated tem)
                           (log (srv s) ++ [LogTerminating (device_name tem)]),
                    chan s)) as Hstep.
    { unfold run_step. by rewrite Hst, Hstop. }
    split; [exact Hstep|]. split.
    + destruct (reachable_request_alone _ _ _ _ Hr Hget) as (-> & _ & _).
      destruct (get_items _ _ _ Hget) as [_ ->]. done.
    + simpl. rewrite Hstep. reflexivity.
Qed.

(** X8 — A client that has connected and sends nothing holds the listener
    thread in [conn.recv] for good: whatever the other threads do, and
    also after the stop event is set, the listener neither accepts another
    connection nor leaves its loop. *)
Theorem silent_client_holds_listener s s' conn :
  lstate (lsn s) = Handling conn HRecv →
  incoming conn = [] →
  rtc step s s' →
  lstate (lsn s') = Handling conn HRecv
  ∧ ∃ later, backlog (lsn s') = backlog (lsn s) ++ later.
Proof.
  intros Hl Hin Hsteps. induction Hsteps as [s|s1 s2 s3 Hstep _ IH].
  - split; [done|]. exists []. by rewrite app_nil_r.
  - assert (lstate (lsn s2) = Handling conn HRecv
            ∧ ∃ later, backlog (lsn s2) = backlog (lsn s1) ++ later) as [Hl2 [later2 Hb2]].
    { destruct Hstep as [sv l sh sv' sh' Hrun|sv l sh l' sh' Hlis|sv l sh c|sv l sh];
        simpl in *.
      - split; [done|]. exists []. by rewrite app_nil_r.
      - unfold listen, handle, recv in Hlis. rewrite Hl, Hin in Hlis. done.
      - split; [done|]. by exists [c].
      - split; [done|]. exists []. by rewrite app_nil_r. }
    destruct (IH Hl2) as [Hl3 [later3 Hb3]]. split; [done|].
    exists (later2 ++ later3). by rewrite Hb3, Hb2, app_assoc.
Qed.


End ShutdownAndExchange.

Section BridgeExtrasRuns.
Import Stub Fixture.

Lemma stopping_reachable cmd :
  eq_str cmd "exit" || eq_str cmd "kill" = false →
  @reachable Z device sockets (const_codec cmd) None
    (System (srv (submitted cmd)) (lsn (submitted cmd))
            (Shared (Queue.Make 1 [cmd]) (Queue.new 1) true)).
Proof.
  intros Hword. eapply rtc_r; [by apply submitted_reachable|].
  apply (@step_stop Z device sockets (const_codec cmd)).
Qed.

Lemma missing_selector_is_type_error_witness :
  ∃ message,
    published (srv (submitted (VDict ∅))) (chan (submitted (VDict ∅)))
    = [VTuple [VInt 500; VTuple [VStr "TypeError"; VTuple [VStr message]]]].
Proof.
  exact (proj1 (missing_selector_is_type_error (H := const_codec (VDict ∅))
                  None (submitted (VDict ∅)) 1 ∅ (Queue.Make 1 [])
                  (submitted_reachable (VDict ∅) eq_refl)
                  eq_refl eq_refl eq_refl eq_refl)).
Defined.

Lemma missing_arguments_default_to_empty_witness :
  published (srv (submitted (VDict {[ "func_name" := VStr "get_binning" ]})))
            (chan (submitted (VDict {[ "func_name" := VStr "get_binning" ]})))
  = [VTuple [VInt 200; VInt 1]].
Proof.
  exact (proj1 (missing_arguments_default_to_empty
                  (H := const_codec (VDict {[ "func_name" := VStr "get_binning" ]}))
                  None (submitted (VDict {[ "func_name" := VStr "get_binning" ]})) 1
                  {[ "func_name" := VStr "get_binning" ]} (Queue.Make 1 [])
                  "get_binning" get_binning (VInt 1) 1
                  (submitted_reachable (VDict {[ "func_name" := VStr "get_binning" ]}) eq_refl)
                  eq_refl eq_refl eq_refl eq_refl eq_refl eq_refl eq_refl)).
Defined.

Lemma handler_submit_goes_through_witness :
  listen (H := const_codec (VDict ∅)) (lsn (decoded (VDict ∅))) (chan (decoded (VDict ∅)))
  = Some (lsn (submitted (VDict ∅)), chan (submitted (VDict ∅))).
Proof.
  exact (proj1 (handler_submit_goes_through (H := const_codec (VDict ∅))
                  None (decoded (VDict ∅)) (Conn [] [] false) (VDict ∅)
                  (decoded_reachable (VDict ∅) eq_refl) eq_refl)).
Defined.

Lemma handler_error_closes_connection_witness :
  listen (H := codec) (Listener (Handling broken HRecv) [talking "boom"] [] [])
         (Shared (Queue.new 1) (Queue.new 1) false)
  = Some (Listener Listening [talking "boom"] [Conn [] [] true]
                   [Exc "ConnectionResetError" [VInt 104; VStr "Connection reset by peer"]],
          Shared (Queue.new 1) (Queue.new 1) false).
Proof.
  exact (proj1 (handler_error_closes_connection (H := codec)
                  (Listener (Handling broken HRecv) [talking "boom"] [] [])
                  (Shared (Queue.new 1) (Queue.new 1) false)
                  broken (Conn [] [] false)
                  (Exc "ConnectionResetError" [VInt 104; VStr "Connection reset by peer"])
                  eq_refl (or_introl eq_refl))).
Defined.

Lemma oversized_chunk_is_cut_witness :
  listen (H := const_codec (VDict ∅))
         (Listener (Handling (Conn [Return (replicate 1025 Byte.x2a)] [] false) HRecv)
                   [] [] [])
         (Shared (Queue.new 1) (Queue.new 1) false)
  = Some (Listener (Handling (Conn [Return [Byte.x2a]] [] false) (HPut (VDict ∅))) [] [] [],
          Shared (Queue.new 1) (Queue.new 1) false).
Proof.
  refine (oversized_chunk_is_cut (H := const_codec (VDict ∅))
            (Listener (Handling (Conn [Return (replicate 1025 Byte.x2a)] [] false) HRecv)
                      [] [] [])
            (Shared (Queue.new 1) (Queue.new 1) false)
            (Conn [Return (replicate 1025 Byte.x2a)] [] false)
            (replicate 1025 Byte.x2a) [] (VDict ∅)
            eq_refl eq_refl _ eq_refl eq_refl).
  rewrite length_replicate. unfold BUFSIZE. lia.
Defined.


Lemma shutdown_serves_pending_command_witness :
  run_steps 4 (Server (Running 1 AtGet) [LogInitialized "stub"])
              (Shared (Queue.Make 1 [VDict {[ "func_name" := VStr "boom" ]}])
                      (Queue.new 1) true)
  = (Server (Terminated 1)
            [LogInitialized "stub";
             LogException (Exc "DeviceFault" [VStr "overheat"]);
             LogServed 500 (VStr "boom")
                       (VTuple [VStr "DeviceFault"; VTuple [VStr "overheat"]]);
             LogTerminating "stub"],
     Shared (Queue.Make 1 [])
            (Queue.Make 1 [VTuple [VInt 500;
                                   VTuple [VStr "DeviceFault"; VTuple [VStr "overheat"]]]])
            true).
Proof.
  exact (proj1 (shutdown_serves_pending_command
                  (H := const_codec (VDict {[ "func_name" := VStr "boom" ]}))
                  None _ 1 AtGet (VDict {[ "func_name" := VStr "boom" ]}) (Queue.Make 1 [])
                  (VStr "boom") (VTuple []) (VDict ∅)
                  (stopping_reachable (VDict {[ "func_name" := VStr "boom" ]}) eq_refl)
                  eq_refl eq_refl eq_refl eq_refl) eq_refl).
Defined.

Lemma silent_client_holds_listener_witness :
  lstate (Listener (Handling silent HRecv) [talking "boom"] [] []) = Handling silent HRecv
  ∧ ∃ later, [talking "boom"] = [] ++ later.
Proof.
  refine (silent_client_holds_listener (H := codec)
            (System (Server (Created None) []) (Listener (Handling silent HRecv) [] [] [])
                    (Shared (Queue.new 1) (Queue.new 1) false) : system Z)
            (System (Server (Created None) [])
                    (Listener (Handling silent HRecv) [talking "boom"] [] [])
                    (Shared (Queue.new 1) (Queue.new 1) true))
            silent eq_refl eq_refl _).
  eapply rtc_l; [apply step_stop|].
  eapply rtc_l; [apply (step_connect _ _ _ (talking "boom"))|]. apply rtc_refl.
Defined.

End BridgeExtrasRuns.

(** ** Start-up, continued *)

Lemma sleeps_for_tem_first attempts initialized poll i :
  (i < attempts)%nat →
  initialized (poll + i)%nat = true →
  (∀ j, (j < i)%nat → initialized (poll + j)%nat = false) →
  wait_for_tem attempts initialized poll = true
  ∧ sleeps_for_tem attempts initialized poll = i.
Proof.
  revert poll i. induction attempts as [|n IH]; intros poll i Hi Hready Hbefore; [lia|].
  simpl. destruct i as [|i].
  - rewrite Nat.add_0_r in Hready. by rewrite Hready.
  - pose proof (Hbefore 0%nat ltac:(lia)) as H0. rewrite Nat.add_0_r in H0. rewrite H0.
    destruct (IH (S poll) i) as [-> ->]; [lia| | |done].
    + by replace (S poll + i)%nat with (poll + S i)%nat by lia.
    + intros j Hj. replace (S poll + j)%nat with (poll + S j)%nat by lia.
      apply Hbefore. lia.
Qed.

Lemma sleeps_for_tem_never attempts initialized poll :
  wait_for_tem attempts initialized poll = false →
  sleeps_for_tem attempts initialized poll = attempts.
Proof.
  revert poll. induction attempts as [|n IH]; intros poll; simpl; [done|].
  destruct (initialized poll); [done|]. intros Hw. by rewrite IH.
Qed.

(** X10 — When the camera flag is selected and the TEM is there for the first
    time at poll [i] of the 100, [main] has slept [i] times, raises nothing
    and starts the camera threads after the TEM threads; when the TEM is
    never there, it has slept all 100 times, the 5 seconds of its error
    message, before it raises. *)
Theorem main_waits_until_tem_is_there opts initialized i :
  camera_option opts = true →
  (i < 100)%nat →
  initialized i = true →
  (∀ j, (j < i)%nat → initialized j = false) →
  main opts initialized = Return [tem_server; tem_listener; cam_server; cam_listener]
  ∧ sleeps_for_tem 100 initialized 0 = i
  ∧ (∀ never : nat → bool,
       (∀ j, (j < 100)%nat → never j = false) →
       sleeps_for_tem 100 never 0 = 100%nat).
Proof.
  intros Hcam Hi Hready Hbefore.
  destruct (sleeps_for_tem_first 100 initialized 0 i Hi Hready Hbefore) as [Hw Hs].
  split; [|split; [exact Hs|]].
  - unfold main. by rewrite Hcam, Hw.
  - intros never Hnever. apply sleeps_for_tem_never.
    apply wait_for_tem_false. intros j Hj. by apply Hnever.
Qed.

Lemma main_waits_until_tem_is_there_witness :
  main (Options None true) (λ poll, bool_decide (3 ≤ poll)%nat)
  = Return [tem_server; tem_listener; cam_server; cam_listener]
  ∧ sleeps_for_tem 100 (λ poll, bool_decide (3 ≤ poll)%nat) 0 = 3%nat.
Proof.
  pose proof (main_waits_until_tem_is_there (Options None true)
                (λ poll, bool_decide (3 ≤ poll)%nat) 3 eq_refl ltac:(lia) eq_refl) as Hmain.
  destruct Hmain as (Hstart & Hslept & _).
  - intros j Hj. apply bool_decide_eq_false. lia.
  - exact (conj Hstart Hslept).
Defined.

(** ** The configuration, continued *)

Section ConfigExtras.
Context `{!Files}.

(** X11 — Only the camera file may be missing: an error of [open] on
    [settings.yaml], or on the file of the microscope that the settings
    name, leaves the constructor as it is, a [FileNotFoundError]
    included. *)
Theorem settings_and_microscope_files_are_required name e :
  (open_read (joinpath directory Config._settings_file) = Raise e →
   Config.__init__ name = Raise e)
  ∧ (∀ settings settings' micr,
       Config.settings = Return settings →
       match name with
       | Some name => setitem settings "microscope" (VStr name)
       | None => Return settings
       end = Return settings' →
       getitem settings' "microscope" = Return micr →
       open_read (joinpath directory (Config.str micr +:+ ".yaml")) = Raise e →
       Config.__init__ name = Raise e).
Proof.
  split.
  - intros Hopen. unfold Config.__init__, Config.settings. by rewrite Hopen.
  - intros settings settings' micr Hset Hname Hmicr Hopen.
    unfold Config.__init__. rewrite Hset. simpl. rewrite Hname. simpl.
    unfold Config.microscope. rewrite Hmicr. simpl. by rewrite Hopen.
Qed.

(** X12 — The [except] clause of the constructor is for the missing file only:
    when the settings have no [camera] entry, the [KeyError] of the lookup
    leaves the constructor, and so does any error of loading the camera
    file that is not a [FileNotFoundError]. *)
Theorem camera_errors_other_than_missing_file_are_fatal
    name settings (d : gmap string value) interface wavelength ranges :
  Config.settings = Return settings →
  match name with
  | Some name => setitem settings "microscope" (VStr name)
  | None => Return settings
  end = Return (VDict d) →
  Config.microscope (VDict d) = Return (interface, wavelength, ranges) →
  (d !! "camera" = None → Config.__init__ name = Raise (KeyError "camera"))
  ∧ (∀ e, Config.load_camera_config (VDict d) = Raise e →
          exc_class e ≠ "FileNotFoundError" →
          Config.__init__ name = Raise e).
Proof.
  intros Hset Hname Hmic. split.
  - intros Hcam. unfold Config.__init__. rewrite Hset. simpl. rewrite Hname. simpl.
    rewrite Hmic. simpl. unfold Config.load_camera_config. simpl. by rewrite Hcam.
  - intros e Hload Hclass. unfold Config.__init__. rewrite Hset. simpl. rewrite Hname.
    simpl. rewrite Hmic. simpl. rewrite Hload. unfold Config.is_FileNotFoundError.
    by rewrite bool_decide_eq_false_2.
Qed.

(** X13 — A name given to the constructor replaces the microscope of the
    settings: the file that is read for the microscope is the one of that
    name, and the settings of the configuration carry the name. *)
Theorem name_overrides_settings name cfg :
  Config.__init__ (Some name) = Return cfg →
  getitem (Config.default_settings cfg) "microscope" = Return (VStr name)
  ∧ ∃ stream, open_read (joinpath directory (name +:+ ".yaml")) = Return stream.
Proof.
  unfold Config.__init__. destruct Config.settings as [settings|e]; [|done]. simpl.
  destruct settings as [| | | | | | | |d|]; try done. simpl.
  unfold Config.microscope at 1. simpl. rewrite lookup_insert_eq. simpl.
  destruct (open_read (joinpath directory (name +:+ ".yaml"))) as [stream|e] eqn:Hopen;
    [|done].
  simpl. intros Hrest. split; [|by exists stream].
  destruct (safe_load stream) as [default|e]; [|done]. simpl in Hrest.
  destruct (getitem default "interface"); [|done]. simpl in Hrest.
  destruct (getitem default "wavelength"); [|done]. simpl in Hrest.
  destruct (getitem default "ranges"); [|done]. simpl in Hrest.
  destruct (Config.load_camera_config _) as [camera|e]; simpl in Hrest.
  - injection Hrest as <-. simpl. by rewrite lookup_insert_eq.
  - destruct (Config.is_FileNotFoundError e); [|done]. simpl in Hrest.
    injection Hrest as <-. simpl. by rewrite lookup_insert_eq.
Qed.

(** X14 — When the camera file is there and parses (to data whose mappings
    have string keys), the camera of the configuration is what the file
    holds, converted by [dict_to_namespace]: for a mapping, a namespace
    whose instance dictionary has one attribute for each entry of the file
    and no other, holding the converted value of the entry. *)
Theorem camera_file_becomes_namespace
    name settings settings' interface wavelength ranges cam stream loaded :
  Config.settings = Return settings →
  match name with
  | Some name => setitem settings "microscope" (VStr name)
  | None => Return settings
  end = Return settings' →
  Config.microscope settings' = Return (interface, wavelength, ranges) →
  getitem settings' "camera" = Return cam →
  open_read (joinpath directory (Config.str cam +:+ ".yaml")) = Return stream →
  safe_load stream = Return loaded →
  Config.__init__ name
  = Return (Config.Build settings' interface wavelength ranges
                         (Config.dict_to_namespace loaded))
  ∧ (∀ items : gmap string value,
       loaded = VDict items →
       ∃ attrs, Config.dict_to_namespace loaded = VNS attrs
                ∧ ∀ key, attrs !! key = Config.dict_to_namespace <$> items !! key).
Proof.
  intros Hset Hname Hmic Hcam Hopen Hload. split.
  - unfold Config.__init__. rewrite Hset. simpl. rewrite Hname. simpl.
    rewrite Hmic. simpl. unfold Config.load_camera_config. rewrite Hcam. simpl.
    rewrite Hopen. simpl. rewrite Hload. reflexivity.
  - intros items ->. eexists. split; [reflexivity|].
    intros key. by rewrite lookup_fmap.
Qed.
End ConfigExtras.

(** *** [dict_to_namespace] *)

Lemma weight_lookup (items : gmap string value) key v :
  items !! key = Some v →
  (weight v
   < S (map_fold (λ _ (n : nat) acc, (n + acc)%nat) 0%nat (weight <$> items)))%nat.
Proof.
  induction items as [|i x items Hi IH] using map_ind; intros Hlook.
  - by rewrite lookup_empty in Hlook.
  - rewrite fmap_insert, map_fold_insert_L.
    + destruct (decide (i = key)) as [->|Hne].
      * rewrite lookup_insert_eq in Hlook. injection Hlook as ->. lia.
      * rewrite lookup_insert_ne in Hlook by done. specialize (IH Hlook). lia.
    + intros. lia.
    + by rewrite lookup_fmap, Hi.
Qed.

Lemma plain_dict (items : gmap string value) :
  map_Forall (λ _ v, plain v) items → plain (VDict items).
Proof.
  intros Hall. simpl. intros key P. rewrite lookup_fmap.
  destruct (items !! key) as [x|] eqn:Hx; [|done]. simpl. intros [= <-].
  by apply (Hall key).
Qed.

Lemma dict_to_namespace_namespaces_only v :
  plain v → namespaces_only (Config.dict_to_namespace v).
Proof.
  remember (weight v) as n eqn:Hn. revert v Hn.
  induction n as [n IH] using lt_wf_ind. intros v -> Hplain.
  destruct v as [| | | | | | | |items|attrs]; try done.
  simpl in *. intros key P. rewrite !lookup_fmap.
  destruct (items !! key) as [x|] eqn:Hx; [|done]. simpl. intros [= <-].
  eapply IH; [by eapply weight_lookup|reflexivity|].
  apply (Hplain key). by rewrite lookup_fmap, Hx.
Qed.

(** X15 — On data whose mappings have string keys, the keys that [NS]
    can take as keywords, [dict_to_namespace] converts every level of
    nested mappings: in what it returns for data made of mappings and
    scalars, no mapping is left under any chain of attributes; it does not
    look into lists, which it returns as they are, mappings inside
    included, and converting twice is converting once. *)
Theorem dict_to_namespace_converts_nested_mappings v :
  plain v →
  namespaces_only (Config.dict_to_namespace v)
  ∧ (∀ items, Config.dict_to_namespace (VList items) = VList items)
  ∧ Config.dict_to_namespace (Config.dict_to_namespace v) = Config.dict_to_namespace v.
Proof.
  intros Hplain. split; [by apply dict_to_namespace_namespaces_only|]. split; [done|].
  by destruct v.
Qed.

Section ConfigExtrasRuns.
Import Fixture.

Lemma settings_and_microscope_files_are_required_witness :
  Config.__init__ (H := no_files) None = Raise FileNotFoundError.
Proof.
  exact (proj1 (settings_and_microscope_files_are_required (H := no_files)
                  None FileNotFoundError) eq_refl).
Defined.

Lemma camera_errors_other_than_missing_file_are_fatal_witness :
  Config.__init__ (H := no_camera_key) None = Raise (KeyError "camera").
Proof.
  exact (proj1 (camera_errors_other_than_missing_file_are_fatal (H := no_camera_key)
                  None (VDict {[ "microscope" := VStr "simulate" ]})
                  {[ "microscope" := VStr "simulate" ]}
                  (VStr "simulate") (VInt 25) (VDict ∅)
                  eq_refl eq_refl eq_refl) eq_refl).
Defined.

Lemma name_overrides_settings_witness :
  getitem (VDict {[ "microscope" := VStr "titan"; "camera" := VStr "tecnai" ]}) "microscope"
  = Return (VStr "titan")
  ∧ ∃ stream, open_read (Files := with_camera) "/srv/titan.yaml" = Return stream.
Proof.
  refine (name_overrides_settings (H := with_camera) "titan"
            (Config.Build (VDict {[ "microscope" := VStr "titan"; "camera" := VStr "tecnai" ]})
                          (VStr "titan") (VInt 25) (VDict ∅)
                          (Config.dict_to_namespace (VDict camera_yaml)))
            _).
  vm_compute. reflexivity.
Defined.

Lemma camera_file_becomes_namespace_witness :
  Config.__init__ (H := with_camera) None
  = Return (Config.Build
              (VDict {[ "microscope" := VStr "simulate"; "camera" := VStr "tecnai" ]})
              (VStr "simulate") (VInt 25) (VDict ∅)
              (VNS {[ "name" := VStr "ceta";
                      "default_binsize" := VInt 2;
                      "dimensions" := VList [VInt 2048; VInt 2048];
                      "correction" := VNS {[ "gain" := VBool true ]} ]})).
Proof.
  exact (proj1 (camera_file_becomes_namespace (H := with_camera) None
                  (VDict {[ "microscope" := VStr "simulate"; "camera" := VStr "tecnai" ]})
                  (VDict {[ "microscope" := VStr "simulate"; "camera" := VStr "tecnai" ]})
                  (VStr "simulate") (VInt 25) (VDict ∅) (VStr "tecnai") "camera"
                  (VDict camera_yaml)
                  eq_refl eq_refl eq_refl eq_refl eq_refl eq_refl)).
Defined.

Lemma camera_yaml_plain : plain (VDict camera_yaml).
Proof.
  apply plain_dict. unfold camera_yaml.
  apply map_Forall_insert_2; [exact I|].
  apply map_Forall_insert_2; [exact I|].
  apply map_Forall_insert_2; [exact I|].
  apply map_Forall_singleton, plain_dict, map_Forall_singleton. exact I.
Qed.

Lemma dict_to_namespace_converts_nested_mappings_witness :
  namespaces_only (Config.dict_to_namespace (VDict camera_yaml)).
Proof.
  exact (proj1 (dict_to_namespace_converts_nested_mappings (VDict camera_yaml)
                  camera_yaml_plain)).
Defined.
End ConfigExtrasRuns.

(** ** The camera *)

Section CameraExtras.
Context `{!Files} {Hw : Type} `{!Acquisition Hw}.
Implicit Types (self attrs : gmap string value) (hw : Hw).

Lemma load_defaults_namespace self cfg attrs :
  Config.__init__ None = Return cfg →
  Config.camera cfg = VNS attrs →
  TecnaiCamera.load_defaults self = Return (attrs ∪ self).
Proof. unfold TecnaiCamera.load_defaults. intros -> Hcam. simpl. by rewrite Hcam. Qed.

(** X16 — With the camera file missing the camera object is built all the same,
    with its name as its only attribute: the annotations of the class give
    no defaults, and [get_binning] and [get_camera_dimensions] raise
    [AttributeError]. *)
Theorem camera_without_file_has_no_defaults name cfg :
  Config.__init__ None = Return cfg →
  Config.camera cfg = Config.NS →
  TecnaiCamera.init_defaults name = Return {[ "name" := VStr name ]}
  ∧ TecnaiCamera.get_name {[ "name" := VStr name ]} = Return (VStr name)
  ∧ TecnaiCamera.get_binning {[ "name" := VStr name ]}
    = Raise (AttributeError "'TecnaiCamera' object has no attribute 'default_binsize'")
  ∧ TecnaiCamera.get_camera_dimensions {[ "name" := VStr name ]}
    = Raise (AttributeError "'TecnaiCamera' object has no attribute 'dimensions'").
Proof.
  intros Hcfg Hcam. split; [|done].
  unfold TecnaiCamera.init_defaults.
  rewrite (load_defaults_namespace _ cfg ∅ Hcfg Hcam). by rewrite (left_id_L ∅ (∪)).
Qed.

(** X17 — The entries of the camera file become attributes of the camera and
    win over what the constructor has set: the getters return the entries
    of the file, and a [name] entry replaces the name that was passed to the
    constructor. *)
Theorem camera_file_overrides_constructor name cfg attrs self :
  Config.__init__ None = Return cfg →
  Config.camera cfg = VNS attrs →
  TecnaiCamera.init_defaults name = Return self →
  TecnaiCamera.get_name self = Return (default (VStr name) (attrs !! "name"))
  ∧ (∀ v, attrs !! "default_binsize" = Some v → TecnaiCamera.get_binning self = Return v)
  ∧ (∀ v, attrs !! "dimensions" = Some v →
          TecnaiCamera.get_camera_dimensions self = Return v).
Proof.
  intros Hcfg Hcam. unfold TecnaiCamera.init_defaults.
  rewrite (load_defaults_namespace _ cfg attrs Hcfg Hcam). intros [= <-].
  unfold TecnaiCamera.get_name, TecnaiCamera.get_binning,
    TecnaiCamera.get_camera_dimensions, TecnaiCamera.attribute.
  split; [|split].
  - rewrite lookup_union. destruct (attrs !! "name") as [v|]; simpl.
    + by rewrite lookup_singleton_eq.
    + by rewrite lookup_singleton_eq.
  - intros v Hv. by rewrite (lookup_union_Some_l _ _ _ _ Hv).
  - intros v Hv. by rewrite (lookup_union_Some_l _ _ _ _ Hv).
Qed.

(** X18 — A camera file that does not hold a mapping, an empty one for
    instance, is worse than a missing one: the configuration is built, but
    [load_defaults] raises [AttributeError] on the [__dict__] of its
    camera. *)
Theorem camera_file_without_mapping_breaks_load_defaults self cfg :
  Config.__init__ None = Return cfg →
  (∀ attrs, Config.camera cfg ≠ VNS attrs) →
  TecnaiCamera.load_defaults self
  = Raise (AttributeError ("'" +:+ type_name (Config.camera cfg)
                           +:+ "' object has no attribute '__dict__'")).
Proof.
  unfold TecnaiCamera.load_defaults. intros -> Hnot. simpl.
  destruct (Config.camera cfg) as [| | | | | | | | |attrs]; try done.
  by destruct (Hnot attrs).
Qed.

Section Images.
Variable np : option (image → value).

(** X19 — An exposure that is not given, or is zero, stands for
    [default_exposure]: the call does what the call with the default does,
    and when no default is configured it raises [AttributeError] before it
    touches the hardware. *)
Theorem get_image_without_exposure_uses_default self exposure binning hw :
  truthy exposure = false →
  (∀ d, self !! "default_exposure" = Some d →
        TecnaiCamera.get_image np self exposure binning hw
        = TecnaiCamera.get_image np self d binning hw)
  ∧ (self !! "default_exposure" = None →
     TecnaiCamera.get_image np self exposure binning hw
     = (Raise (AttributeError "'TecnaiCamera' object has no attribute 'default_exposure'"),
        hw)).
Proof.
  intros Hfalsy. unfold TecnaiCamera.get_image, TecnaiCamera.attribute. rewrite Hfalsy.
  split.
  - intros d ->. by destruct (truthy d).
  - by intros ->.
Qed.

Lemma frames_length self exposure binsize n hw imgs hw' :
  TecnaiCamera.frames np self exposure binsize n hw = (Return imgs, hw') →
  length imgs = n.
Proof.
  revert hw imgs hw'. induction n as [|n IH]; intros hw imgs hw'; simpl.
  - by intros [= <- _].
  - destruct (TecnaiCamera.get_image np self exposure binsize hw) as [[img|e] hw1]; [|done].
    destruct (TecnaiCamera.frames np self exposure binsize n hw1) as [[rest|e] hw2] eqn:E;
      [|done].
    intros [= <- _]. simpl. f_equal. by eapply IH.
Qed.

Lemma frames_taken_in_turn self exposure binsize n hw imgs hw' :
  TecnaiCamera.frames np self exposure binsize n hw = (Return imgs, hw') →
  TecnaiCamera.taken_in_turn np self exposure binsize hw imgs hw'.
Proof.
  revert hw imgs hw'. induction n as [|n IH]; intros hw imgs hw'; simpl.
  - intros [= <- <-]. constructor.
  - destruct (TecnaiCamera.get_image np self exposure binsize hw) as [[img|e] hw1] eqn:Eimg;
      [|done].
    destruct (TecnaiCamera.frames np self exposure binsize n hw1) as [[rest|e] hw2] eqn:E;
      [|done].
    intros [= <- <-]. econstructor; [exact Eimg|]. by apply IH.
Qed.

Lemma frames_raise self exposure binsize n hw e hw' :
  TecnaiCamera.frames np self exposure binsize n hw = (Raise e, hw') →
  ∃ imgs hw1,
    (length imgs < n)%nat
    ∧ TecnaiCamera.taken_in_turn np self exposure binsize hw imgs hw1
    ∧ TecnaiCamera.get_image np self exposure binsize hw1 = (Raise e, hw').
Proof.
  revert hw. induction n as [|n IH]; intros hw; simpl; [done|].
  destruct (TecnaiCamera.get_image np self exposure binsize hw) as [[img|e1] hw1] eqn:Eimg.
  - destruct (TecnaiCamera.frames np self exposure binsize n hw1) as [[rest|e2] hw2] eqn:E;
      [done|].
    intros [= <- <-]. destruct (IH _ E) as (imgs & hwk & Hlen & Htaken & Hfail).
    exists (img :: imgs), hwk. split; [simpl; lia|]. split; [|done].
    econstructor; [exact Eimg|exact Htaken].
  - intros [= <- <-]. exists [], hw. split; [simpl; lia|]. split; [constructor|done].
Qed.

(** X20 — A movie that is returned has as many frames as were asked for, and
    its frames are what [get_image] returned in as many calls, made in turn
    with the [exposure] of the call and its [binsize] as the binning, each
    on the hardware as the call before left it; no call is made for a count
    of zero or less.  A movie is not returned when one of the calls raises:
    the error of the first one that does leaves [get_movie], after the
    frames before it were taken and with the hardware as that call left
    it. *)
Theorem get_movie_takes_the_frames_asked_for self n exposure binsize hw :
  (∀ v hw',
     TecnaiCamera.get_movie np self (VInt n) exposure binsize hw = (Return v, hw') →
     ∃ imgs, v = VList imgs
             ∧ length imgs = Z.to_nat n
             ∧ TecnaiCamera.taken_in_turn np self exposure binsize hw imgs hw'
             ∧ (n ≤ 0 → imgs = [] ∧ hw' = hw))
  ∧ (∀ e hw',
       TecnaiCamera.get_movie np self (VInt n) exposure binsize hw = (Raise e, hw') →
       ∃ imgs hw1,
         (length imgs < Z.to_nat n)%nat
         ∧ TecnaiCamera.taken_in_turn np self exposure binsize hw imgs hw1
         ∧ TecnaiCamera.get_image np self exposure binsize hw1 = (Raise e, hw')).
Proof.
  unfold TecnaiCamera.get_movie. simpl. split.
  - intros v hw'.
    destruct (TecnaiCamera.frames np self exposure binsize (Z.to_nat n) hw)
      as [[fs|e] hw1] eqn:E; [|done].
    intros [= <- <-]. exists fs. split; [done|].
    split; [by eapply frames_length|]. split; [by eapply frames_taken_in_turn|].
    intros Hn. replace (Z.to_nat n) with 0%nat in E by lia. simpl in E. by simplify_eq.
  - intros e hw'.
    destruct (TecnaiCamera.frames np self exposure binsize (Z.to_nat n) hw)
      as [[fs|e1] hw1] eqn:E; [done|].
    intros [= <- <-]. by eapply frames_raise.
Qed.
End Images.

(** X21 — Without [numpy], when the two acquisition parameters are accepted
    and the acquisition gives at least one image, [get_image] returns, for
    the first image that was acquired, a list of [Width] rows of [Height]
    pixels each, in which the pixel at row [r] and column [c] is the entry
    [(r, c)] of the safe array of that image; the hardware is as the
    acquisition left it. *)
Theorem get_image_is_width_rows_of_height
    self exposure binning hw exposure_time hw1 hw2 img others hw3 :
  (if truthy exposure then Return exposure
   else TecnaiCamera.attribute self "default_exposure") = Return exposure_time →
  set_ExposureTime exposure_time hw = Return hw1 →
  set_Binning binning hw1 = Return hw2 →
  AcquireImages hw2 = (Return (img :: others), hw3) →
  ∃ rows,
    TecnaiCamera.get_image None self exposure binning hw = (Return (VList rows), hw3)
    ∧ length rows = Width img
    ∧ ∀ r, (r < Width img)%nat →
        ∃ pixels, rows !! r = Some (VList pixels)
                  ∧ length pixels = Height img
                  ∧ ∀ c, (c < Height img)%nat → pixels !! c = Some (AsSafeArray img r c).
Proof.
  intros Hexp Hset Hbin Hacq. unfold TecnaiCamera.get_image.
  rewrite Hexp, Hset, Hbin, Hacq. eexists. split; [reflexivity|].
  split; [by rewrite length_fmap, length_seq|].
  intros r Hr. eexists. split; [|split].
  - rewrite list_lookup_fmap, lookup_seq_lt by done. reflexivity.
  - by rewrite length_fmap, length_seq.
  - intros c Hc. rewrite list_lookup_fmap, lookup_seq_lt by done. reflexivity.
Qed.
End CameraExtras.

Section CameraExtrasRuns.
Import Fixture.

Lemma camera_without_file_has_no_defaults_witness :
  TecnaiCamera.init_defaults (H := Stub.files) "tecnai"
  = Return {[ "name" := VStr "tecnai" ]}.
Proof.
  exact (proj1 (camera_without_file_has_no_defaults (H := Stub.files) "tecnai"
                  (Config.Build
                     (VDict {[ "microscope" := VStr "simulate"; "camera" := VStr "tecnai" ]})
                     (VStr "simulate") (VInt 25) (VDict ∅) (VNS ∅))
                  eq_refl eq_refl)).
Defined.

Lemma camera_file_overrides_constructor_witness :
  TecnaiCamera.get_name
    ((Config.dict_to_namespace <$> camera_yaml) ∪ {[ "name" := VStr "tecnai" ]})
  = Return (VStr "ceta").
Proof.
  refine (proj1 (camera_file_overrides_constructor (H := with_camera) "tecnai"
                   (Config.Build
                      (VDict {[ "microscope" := VStr "simulate"; "camera" := VStr "tecnai" ]})
                      (VStr "simulate") (VInt 25) (VDict ∅)
                      (Config.dict_to_namespace (VDict camera_yaml)))
                   (Config.dict_to_namespace <$> camera_yaml)
                   ((Config.dict_to_namespace <$> camera_yaml) ∪ {[ "name" := VStr "tecnai" ]})
                   eq_refl eq_refl eq_refl)).
Defined.

Lemma camera_file_without_mapping_breaks_load_defaults_witness :
  TecnaiCamera.load_defaults (H := empty_camera) ∅
  = Raise (AttributeError "'NoneType' object has no attribute '__dict__'").
Proof.
  refine (camera_file_without_mapping_breaks_load_defaults (H := empty_camera) ∅
            (Config.Build
               (VDict {[ "microscope" := VStr "simulate"; "camera" := VStr "tecnai" ]})
               (VStr "simulate") (VInt 25) (VDict ∅) VNone)
            eq_refl _).
  intros attrs. discriminate.
Defined.

Lemma get_image_without_exposure_uses_default_witness :
  TecnaiCamera.get_image (Acquisition0 := counting_camera) None
    {[ "default_exposure" := VInt 1 ]} VNone (VInt 1) 0%nat
  = TecnaiCamera.get_image (Acquisition0 := counting_camera) None
      {[ "default_exposure" := VInt 1 ]} (VInt 1) (VInt 1) 0%nat.
Proof.
  exact (proj1 (get_image_without_exposure_uses_default (Acquisition0 := counting_camera) None
                  {[ "default_exposure" := VInt 1 ]} VNone (VInt 1) 0%nat eq_refl)
               (VInt 1) eq_refl).
Defined.

Lemma get_movie_takes_the_frames_asked_for_witness :
  ∃ imgs,
    VList [TecnaiCamera.frame None (Image 2 3 (λ r c, VInt (Z.of_nat (10 * r + c))));
           TecnaiCamera.frame None (Image 2 3 (λ r c, VInt (Z.of_nat (10 * r + c))))]
    = VList imgs
    ∧ length imgs = Z.to_nat 2
    ∧ TecnaiCamera.taken_in_turn (Acquisition0 := counting_camera) None
        ∅ (VFloat 4607182418800017408) VNone 0%nat imgs 2%nat
    ∧ (2 ≤ 0 → imgs = [] ∧ 2%nat = 0%nat).
Proof.
  exact (proj1 (get_movie_takes_the_frames_asked_for (Acquisition0 := counting_camera) None
                  ∅ 2 (VFloat 4607182418800017408) VNone 0%nat)
               (VList [TecnaiCamera.frame None
                         (Image 2 3 (λ r c, VInt (Z.of_nat (10 * r + c))));
                       TecnaiCamera.frame None
                         (Image 2 3 (λ r c, VInt (Z.of_nat (10 * r + c))))])
               2%nat eq_refl).
Defined.

Lemma get_image_is_width_rows_of_height_witness :
  ∃ rows,
    TecnaiCamera.get_image (Acquisition0 := counting_camera) None ∅ (VInt 1) (VInt 1) 0%nat
    = (Return (VList rows), 1%nat)
    ∧ length rows = 3%nat
    ∧ ∀ r, (r < 3)%nat →
        ∃ pixels, rows !! r = Some (VList pixels)
                  ∧ length pixels = 2%nat
                  ∧ ∀ c, (c < 2)%nat → pixels !! c = Some (VInt (Z.of_nat (10 * r + c))).
Proof.
  exact (get_image_is_width_rows_of_height (Acquisition0 := counting_camera)
           ∅ (VInt 1) (VInt 1) 0%nat (VInt 1) 0%nat 0%nat
           (Image 2 3 (λ r c, VInt (Z.of_nat (10 * r + c)))) [] 1%nat
           eq_refl eq_refl eq_refl eq_refl).
Defined.
End CameraExtrasRuns.

(** ** The client *)

Section ClientExtras.
Context {Dev : Type} `{!Device Dev} {sockets : Sockets} `{!Serializer}.
Variable exception_list : gmap string string.
Variable key_order : gmap string value → list string.
Variable format : value → string.

Local Abbreviation socket_send := (Client.socket_send exception_list key_order format).
Local Abbreviation socket_send_recv :=
  (Client.socket_send_recv exception_list key_order format).

Lemma socket_send_success d reply loaded v :
  reply ≠ [] →
  loader reply = Return loaded →
  Client.sequence loaded [VInt 200; v] →
  socket_send d reply = Return v.
Proof.
  intros Hne Hload Hseq. unfold Client.socket_send.
  destruct reply as [|b reply]; [done|]. rewrite Hload. simpl.
  by destruct Hseq as [-> | ->].
Qed.

Lemma socket_send_failure d reply loaded data code args items :
  reply ≠ [] →
  loader reply = Return loaded →
  Client.sequence loaded [VInt 500; data] →
  Client.sequence data [VStr code; args] →
  Client.sequence args items →
  socket_send d reply
  = Raise (Exc (default "TEMCommunicationError" (exception_list !! code)) items).
Proof.
  intros Hne Hload Hseq Hdata Hargs. unfold Client.socket_send.
  destruct reply as [|b reply]; [done|]. rewrite Hload. simpl.
  by destruct Hseq as [-> | ->], Hdata as [-> | ->], Hargs as [-> | ->].
Qed.

Lemma socket_send_recv_whole d reply later out shut :
  reply ≠ [] →
  (length reply ≤ 1024)%nat →
  socket_send_recv d (Conn (Return reply :: later) out shut)
  = Some (socket_send d reply, Conn later out shut).
Proof.
  intros Hne Hlen. unfold Client.socket_send_recv, recv.
  cbn [incoming sent closed]. by rewrite take_ge, drop_ge by lia.
Qed.

(** X22 — A remote call gives the client what the device gave the server,
    as long as the reply fits the one [socket.recv(1024)] of the client:
    when the reply is the encoding of the published result, is at most
    1024 bytes long, has arrived whole and decodes to the result,
    [socket_send] returns the value that the operation returned, and for
    an operation that raised it raises an exception with the same
    arguments, of the class registered for the name of the raised class (the
    same class, when it is registered under its own name) or a
    [TEMCommunicationError] when none is registered.  Of a longer reply the
    client decodes the first 1024 bytes alone, and the rest stays on the
    socket for the next call. *)
Theorem remote_call_round_trip
    name (s : system Dev) tem cmd q fn args kwargs d r reply later out shut :
  reachable name s →
  state (srv s) = Running tem AtGet →
  Queue.get (requests (chan s)) = Some (cmd, q) →
  command_fields cmd = Return (fn, args, kwargs) →
  published (srv s) (chan s) = [r] →
  dumper r = Return reply →
  reply ≠ [] →
  (length reply ≤ 1024)%nat →
  loader reply = Return r →
  (∀ v tem', evaluate tem fn args kwargs = (Return v, tem') →
             socket_send_recv d (Conn (Return reply :: later) out shut)
             = Some (Return v, Conn later out shut))
  ∧ (∀ e tem', evaluate tem fn args kwargs = (Raise e, tem') →
       socket_send_recv d (Conn (Return reply :: later) out shut)
       = Some (Raise (Exc (default "TEMCommunicationError" (exception_list !! exc_class e))
                          (exc_args e)),
               Conn later out shut)
       ∧ (exception_list !! exc_class e = Some (exc_class e) →
          socket_send_recv d (Conn (Return reply :: later) out shut)
          = Some (Raise e, Conn later out shut)))
  ∧ (∀ long, (1024 < length long)%nat →
       socket_send_recv d (Conn (Return long :: later) out shut)
       = Some (socket_send d (take 1024 long),
               Conn (Return (drop 1024 long) :: later) out shut)).
Proof.
  intros Hr Hst Hget Hcmd Hpub Hdump Hne Hlen Hload.
  rewrite (socket_send_recv_whole d reply later out shut Hne Hlen).
  split; [|split].
  - intros v tem' Hev.
    destruct (published_success _ _ _ _ _ _ _ _ _ _ Hr Hst Hget Hcmd Hev) as [Hpub' _].
    rewrite Hpub in Hpub'. injection Hpub' as ->. f_equal. f_equal.
    eapply socket_send_success; [done|exact Hload|by left].
  - intros e tem' Hev.
    destruct (published_failure _ _ _ _ _ _ _ _ _ _ Hr Hst Hget Hcmd Hev) as [Hpub' _].
    rewrite Hpub in Hpub'. injection Hpub' as ->.
    assert (socket_send d reply
            = Raise (Exc (default "TEMCommunicationError" (exception_list !! exc_class e))
                         (exc_args e))) as Hraise.
    { eapply socket_send_failure; [done|exact Hload|by left|by left|by left]. }
    rewrite Hraise. split; [done|]. intros Hreg. rewrite Hreg. by destruct e.
  - intros long Hlong. unfold Client.socket_send_recv, recv.
    cbn [incoming sent closed].
    destruct (drop 1024 long) as [|b rest] eqn:Edrop; [|done].
    apply (f_equal length) in Edrop. rewrite length_drop in Edrop. simpl in Edrop. lia.
Qed.

(** X23 — A reply need not hold tuples: with a codec that turns tuples into
    lists, a Failure still raises the class of its error code with the
    items of its arguments; an error code that cannot be a key of the
    registry, a list for instance, raises [TypeError] instead; a status
    that is neither 200 nor 500 raises [ConnectionError], and an empty reply
    [RuntimeError]. *)
Theorem reply_is_decoded_in_either_form d reply loaded data :
  reply ≠ [] →
  loader reply = Return loaded →
  Client.sequence loaded [VInt 500; data] →
  (∀ code args items,
      Client.sequence data [VStr code; args] → Client.sequence args items →
      socket_send d reply
      = Raise (Exc (default "TEMCommunicationError" (exception_list !! code)) items))
  ∧ (∀ codes args,
      Client.sequence data [VList codes; args] →
      socket_send d reply = Raise (TypeError "unhashable type: 'list'"))
  ∧ (∀ status, eq_int status 200 4641240890982006784 = false →
               eq_int status 500 4647503709213818880 = false →
               ∀ reply' loaded', reply' ≠ [] → loader reply' = Return loaded' →
               Client.sequence loaded' [status; data] →
               socket_send d reply'
               = Raise (Exc "ConnectionError"
                            [VStr ("Unknown status code: " +:+ format status)]))
  ∧ socket_send d []
    = Raise (RuntimeError ("Received empty response when evaluating "
                           +:+ format (VDict (Client.prepare d)))).
Proof.
  intros Hne Hload Hseq. split; [|split; [|split]].
  - intros code args items Hdata Hargs. by eapply socket_send_failure.
  - intros codes args Hdata. unfold Client.socket_send.
    destruct reply as [|b reply]; [done|]. rewrite Hload. simpl.
    by destruct Hseq as [-> | ->], Hdata as [-> | ->].
  - intros status H200 H500 reply' loaded' Hne' Hload' Hseq'. unfold Client.socket_send.
    destruct reply' as [|b reply']; [done|]. rewrite Hload'. simpl.
    destruct Hseq' as [-> | ->]; simpl; by rewrite H200, H500.
  - reflexivity.
Qed.

(** X24 — The client never leaves the arguments out: what it sends has [args]
    and [kwargs], with the empty tuple and the empty dict in the place of a
    missing entry or of [None], so that for its commands the server's own
    defaults are not used and the selector is the one of the command. *)
Theorem client_fills_in_arguments (d : gmap string value) :
  command_fields (VDict (Client.prepare d))
  = Return (default (default VNone (d !! "attr_name")) (d !! "func_name"),
            (if is_None (default VNone (d !! "args")) then VTuple []
             else default VNone (d !! "args")),
            (if is_None (default VNone (d !! "kwargs")) then VDict ∅
             else default VNone (d !! "kwargs")))
  ∧ is_Some (Client.prepare d !! "args")
  ∧ is_Some (Client.prepare d !! "kwargs").
Proof.
  assert (∀ key, key ≠ "args" → key ≠ "kwargs" → Client.prepare d !! key = d !! key)
    as Hother.
  { intros key Ha Hk. unfold Client.prepare.
    destruct (is_None (default VNone (d !! "args")));
      destruct (is_None (default VNone (_ !! "kwargs")));
      by rewrite ?lookup_insert_ne by done. }
  assert (Client.prepare d !! "args"
          = Some (if is_None (default VNone (d !! "args")) then VTuple []
                  else default VNone (d !! "args"))) as Hargs.
  { unfold Client.prepare.
    destruct (is_None (default VNone (d !! "args"))) eqn:Ea;
      destruct (is_None (default VNone (_ !! "kwargs")));
      rewrite ?lookup_insert_ne by discriminate; rewrite ?lookup_insert_eq; try done;
      destruct (d !! "args"); simpl in *; done. }
  assert (Client.prepare d !! "kwargs"
          = Some (if is_None (default VNone (d !! "kwargs")) then VDict ∅
                  else default VNone (d !! "kwargs"))) as Hkwargs.
  { unfold Client.prepare.
    destruct (is_None (default VNone (d !! "args"))) eqn:Ea;
      rewrite ?lookup_insert_ne by discriminate;
      destruct (is_None (default VNone (d !! "kwargs"))) eqn:Ek;
      rewrite ?lookup_insert_eq; rewrite ?lookup_insert_ne by discriminate; try done;
      destruct (d !! "kwargs"); simpl in *; done. }
  rewrite command_fields_dict, Hargs, Hkwargs, !Hother by discriminate.
  split; [done|]. split; eauto.
Qed.
End ClientExtras.

Section ClientExtrasRuns.
Import Stub Fixture.

Lemma submitted_reachable_two_way cmd r :
  eq_str cmd "exit" || eq_str cmd "kill" = false →
  @reachable Z device sockets (two_way cmd r) None (submitted cmd).
Proof.
  intros Hword. unfold reachable, initial.
  eapply rtc_l; [apply step_run; reflexivity|].
  eapply rtc_l; [apply (step_connect _ _ _ ping)|].
  eapply rtc_l; [apply step_listen; reflexivity|].
  eapply rtc_l; [apply step_listen; reflexivity|].
  eapply rtc_l; [apply step_listen; reflexivity|].
  assert (@loader (two_way cmd r) [Byte.x2a] = Return cmd) as Hload by reflexivity.
  eapply rtc_l.
  { apply step_listen. cbn -[eq_str loader]. rewrite Hload, Hword. reflexivity. }
  eapply rtc_l; [apply step_listen; reflexivity|].
  apply rtc_refl.
Qed.

Lemma remote_call_round_trip_witness :
  Client.socket_send_recv
    (H := two_way (VDict {[ "func_name" := VStr "boom" ]})
                  (VTuple [VInt 500; VTuple [VStr "DeviceFault"; VTuple [VStr "overheat"]]]))
    registry (λ _, []) type_name
    {[ "func_name" := VStr "boom" ]}
    (Conn [Return (String.list_byte_of_string "error")] [] false)
  = Some (Raise (Exc "DeviceFault" [VStr "overheat"]), Conn [] [] false).
Proof.
  refine (proj2 (proj1 (proj2
    (remote_call_round_trip
       (H := two_way (VDict {[ "func_name" := VStr "boom" ]})
                     (VTuple [VInt 500;
                              VTuple [VStr "DeviceFault"; VTuple [VStr "overheat"]]]))
       registry (λ _, []) type_name
       None (submitted (VDict {[ "func_name" := VStr "boom" ]})) 1
       (VDict {[ "func_name" := VStr "boom" ]}) (Queue.Make 1 [])
       (VStr "boom") (VTuple []) (VDict ∅) {[ "func_name" := VStr "boom" ]}
       (VTuple [VInt 500; VTuple [VStr "DeviceFault"; VTuple [VStr "overheat"]]])
       (String.list_byte_of_string "error") [] [] false
       (submitted_reachable_two_way
          (VDict {[ "func_name" := VStr "boom" ]})
          (VTuple [VInt 500; VTuple [VStr "DeviceFault"; VTuple [VStr "overheat"]]])
          eq_refl)
       eq_refl eq_refl eq_refl eq_refl eq_refl _ _ eq_refl))
    (Exc "DeviceFault" [VStr "overheat"]) 1 eq_refl) eq_refl).
  - discriminate.
  - vm_compute. lia.
Defined.

Lemma reply_is_decoded_in_either_form_witness :
  Client.socket_send
    (H := const_codec
            (VList [VInt 500; VList [VStr "Overheated"; VList [VStr "stage"; VInt 3]]]))
    registry (λ _, []) type_name ∅ [Byte.x2a]
  = Raise (Exc "TEMCommunicationError" [VStr "stage"; VInt 3]).
Proof.
  refine (proj1
    (reply_is_decoded_in_either_form
       (H := const_codec
               (VList [VInt 500; VList [VStr "Overheated"; VList [VStr "stage"; VInt 3]]]))
       registry (λ _, []) type_name ∅ [Byte.x2a]
       (VList [VInt 500; VList [VStr "Overheated"; VList [VStr "stage"; VInt 3]]])
       (VList [VStr "Overheated"; VList [VStr "stage"; VInt 3]])
       _ eq_refl (or_intror eq_refl))
    "Overheated" (VList [VStr "stage"; VInt 3]) [VStr "stage"; VInt 3]
    (or_intror eq_refl) (or_intror eq_refl)).
  discriminate.
Defined.
End ClientExtrasRuns.
